(** * pyart.graph.radarmapdisplay: radar sweeps on a geographic map

    A shallow embedding of [RadarMapDisplay] (src/pyart/graph/radarmapdisplay.py)
    and the properties of its drawing methods.

    Conventions of the embedding.
    - A Python [float] and the elements of a numpy [float64] array are real
      numbers ([R]): rounding is not modelled, so every equation below is the
      exact-arithmetic statement of what the code computes.
    - A numpy array is the list of its elements in C order; the shape is not
      kept (the code only maps over arrays and reduces them with min/max).
    - A method of the display is a computation in the monad [M]: it reads and
      updates the interpreter state [World] (the display object [self], the
      pyplot current axes and figure, an allocator for the objects the
      plotting libraries create, and the list of artists drawn so far) and
      either returns a value or raises an exception.  The state reached when
      an exception is raised is kept, as in Python.
    - The libraries behind the display (the base class [RadarDisplay],
      [pyproj], [Basemap]) are the interface [Backend]. *)

From Stdlib Require Import Reals Lra Lia ZArith Bool String List.
Import ListNotations.
Open Scope R_scope.

Set Implicit Arguments.

(** ** Exceptions and results *)

Inductive exn : Type :=
| TypeError      (* calling [None] *)
| IndexError     (* list index out of range *)
| ValueError     (* reduction of a zero-size array *)
| RuntimeError   (* pyproj: buffer lengths not the same *)
| KeyError
| IOError.

Inductive result (A : Type) : Type :=
| Ok (a : A)
| Raise (e : exn).
Arguments Ok {A} a.
Arguments Raise {A} e.

(** ** The part of numpy the module uses *)

Module Np.

Definition ndarray := list R.

(** A masked array: [None] is a masked element. *)
Definition marray := list (option R).

(** [np.arange(start, stop, step)] on integers: the values
    [start + i * step] for [0 <= i < ceil ((stop - start) / step)];
    [stop] itself is never produced.  (numpy raises for [step = 0];
    here the array is empty.) *)
Definition arange (start stop step : Z) : list Z :=
  let n := Z.to_nat (- ((start - stop) / step))%Z in
  map (fun i => (start + Z.of_nat i * step)%Z) (seq 0 n).

(** [np.linspace(start, stop, num)] with the default [endpoint=True]:
    [step = (stop - start) / (num - 1)], [y = arange(0, num) * step + start],
    and then [y[-1] = stop] when [num > 1]. *)
Definition linspace (start stop : R) (num : nat) : ndarray :=
  let div := (num - 1)%nat in
  let step := (stop - start) / INR div in
  let y := map (fun i => INR i * step + start) (seq 0 num) in
  if (1 <? num)%nat then removelast y ++ [stop] else y.

(** [a * c], elementwise. *)
Definition scale (a : ndarray) (c : R) : ndarray := map (fun v => v * c) a.

(** [c * np.sin(a)] and [c * np.cos(a)], elementwise. *)
Definition scaled_sin (c : R) (a : ndarray) : ndarray := map (fun t => c * sin t) a.
Definition scaled_cos (c : R) (a : ndarray) : ndarray := map (fun t => c * cos t) a.

(** [a.max()] and [a.min()]: a zero-size array has no maximum. *)
Definition amax (a : ndarray) : result R :=
  match a with
  | [] => Raise ValueError
  | v :: a' => Ok (fold_left Rmax a' v)
  end.

Definition amin (a : ndarray) : result R :=
  match a with
  | [] => Raise ValueError
  | v :: a' => Ok (fold_left Rmin a' v)
  end.

Definition Rltb (a b : R) : bool := if Rlt_dec a b then true else false.

(** [np.ma.masked_outside(x, v1, v2)]: masks the elements outside the
    interval; the boundaries may be given in either order. *)
Definition masked_outside (x : marray) (v1 v2 : R) : marray :=
  let '(lo, hi) := if Rltb v2 v1 then (v2, v1) else (v1, v2) in
  map (fun o => match o with
                | Some v => if Rltb v lo || Rltb hi v then None else Some v
                | None => None
                end) x.

(** A Python list indexed by a non-negative constant. *)
Definition getitem (l : list R) (i : nat) : result R :=
  match nth_error l i with
  | Some v => Ok v
  | None => Raise IndexError
  end.

End Np.

Definition ndarray : Type := Np.ndarray.
Definition marray : Type := Np.marray.

(** ** Objects of the plotting libraries *)

Definition Axis := nat.
Definition Figure := nat.

(** [pyproj.Proj(proj=..., datum=..., lat_0=..., lon_0=..., x_0=..., y_0=...)]. *)
Record Proj : Type := mkProj {
  proj_name : string;
  proj_datum : string;
  proj_lat_0 : R;
  proj_lon_0 : R;
  proj_x_0 : R;
  proj_y_0 : R
}.

(** A [Basemap] instance: its identity and the arguments it was built from. *)
Record Basemap : Type := mkBasemap {
  bm_id : nat;
  llcrnrlon : R;
  llcrnrlat : R;
  urcrnrlon : R;
  urcrnrlat : R;
  projection : string;
  area_thresh : R;
  bm_resolution : string;
  bm_ax : Axis;
  bm_lat_0 : R;
  bm_lon_0 : R
}.

(** Handles of a pseudocolor mesh and of a colorbar. *)
Record Mesh : Type := mkMesh { mesh_id : nat }.
Record Colorbar : Type := mkColorbar { cb_id : nat }.

(** What has been drawn, in drawing order. *)
Inductive Artist : Type :=
| Coastlines (bm : Basemap) (linewidth : R)
| States (bm : Basemap)
| Parallels (bm : Basemap) (circles : ndarray) (labels : list bool)
| Meridians (bm : Basemap) (meridians : ndarray) (labels : list bool)
| Pcolormesh (bm : Basemap) (pm : Mesh) (xd yd : ndarray) (data : marray)
             (vmin vmax : R) (cmap : string)
| Shapefile (bm : Basemap) (file name : string) (ax : Axis)
| Title (ax : Axis) (text : string)
| ColorbarOf (fig : Figure) (cb : Colorbar) (mappable : Mesh) (label : string)
| Line (ax : Axis) (xs ys : ndarray) (fmt : string)
| Text (ax : Axis) (x y : R) (s : string).

(** ** The libraries behind the display *)

Class Backend : Type := {
  (** the radar object, as the base class keeps it *)
  Radar : Type;
  (** [self.loc]: latitude and longitude of the radar *)
  radar_loc : Radar -> R * R;
  (** [RadarDisplay._parse_vmin_vmax], [_get_data], [_get_x_y] *)
  parse_vmin_vmax : Radar -> string -> option R -> option R -> result (R * R);
  get_data : Radar -> string -> Z -> option (string * R) -> result marray;
  get_x_y : Radar -> R * R -> string -> Z -> result (ndarray * ndarray);
  (** default title and colorbar label of the base class *)
  generate_title : Radar -> string -> Z -> string;
  generate_colorbar_label : Radar -> string -> string;
  (** [pyproj.Proj.__call__] on one point; the flag is [inverse] *)
  pyproj_transform : Proj -> bool -> R -> R -> R * R;
  (** [Basemap.__call__] on one point: longitude, latitude to map coordinates *)
  basemap_transform : Basemap -> R -> R -> R * R;
  (** what the [Basemap] constructor rejects (invalid corners, resolution) *)
  basemap_check : Basemap -> result unit;
  (** what [Basemap.readshapefile] rejects *)
  shapefile_check : string -> result unit
}.

(** ** The display object and the interpreter state *)

Section Monad.

Context {B : Backend}.

(** The attributes of the base class [RadarDisplay] this module reads or
    updates. *)
Record RadarDisplay : Type := mkRadarDisplay {
  radar : Radar;
  shift : R * R;
  loc : R * R;
  plots : list Mesh;
  plot_vars : list string;
  cbs : list Colorbar
}.

(** [RadarMapDisplay]: the base class and the two map attributes. *)
Record RadarMapDisplay : Type := mkRadarMapDisplay {
  base : RadarDisplay;
  basemap : option Basemap;
  proj : Proj
}.

Record World : Type := mkWorld {
  self : RadarMapDisplay;
  cur_ax : Axis;
  cur_fig : Figure;
  next_id : nat;
  drawn : list Artist
}.

(** *** The monad of methods *)

Definition M (A : Type) : Type := World -> result A * World.

Definition ret {A} (a : A) : M A := fun w => (Ok a, w).

Definition bind {A C} (m : M A) (f : A -> M C) : M C :=
  fun w => match m w with
           | (Ok a, w') => f a w'
           | (Raise e, w') => (Raise e, w')
           end.

Definition raise {A} (e : exn) : M A := fun w => (Raise e, w).

Definition lift {A} (r : result A) : M A := fun w => (r, w).

Definition getattr {A} (f : RadarMapDisplay -> A) : M A :=
  fun w => (Ok (f (self w)), w).

Definition setattr (f : RadarMapDisplay -> RadarMapDisplay) : M unit :=
  fun w => (Ok tt, mkWorld (f (self w)) (cur_ax w) (cur_fig w) (next_id w) (drawn w)).

(** [matplotlib.pyplot.gca()] and [gcf()]. *)
Definition gca : M Axis := fun w => (Ok (cur_ax w), w).
Definition gcf : M Figure := fun w => (Ok (cur_fig w), w).

(** A new object of a plotting library. *)
Definition fresh : M nat :=
  fun w => (Ok (next_id w),
            mkWorld (self w) (cur_ax w) (cur_fig w) (S (next_id w)) (drawn w)).

Definition draw (a : Artist) : M unit :=
  fun w => (Ok tt,
            mkWorld (self w) (cur_ax w) (cur_fig w) (next_id w) (drawn w ++ [a])).

End Monad.

Declare Scope py_scope.
Delimit Scope py_scope with py.
Notation "x <- m ;; k" := (bind m (fun x => k))
  (at level 61, m at next level, right associativity) : py_scope.
Notation "' p <- m ;; k" := (bind m (fun x => match x with p => k end))
  (at level 61, p pattern, m at next level, right associativity) : py_scope.
Notation "m ;; k" := (bind m (fun _ => k))
  (at level 61, right associativity) : py_scope.
Open Scope py_scope.

Section Display.

Context {B : Backend}.

(** *** Calls into the projection libraries *)

(** A transformation called on two arrays works point by point; pyproj
    refuses buffers of different lengths. *)
Definition pointwise (f : R -> R -> R * R) (xs ys : ndarray) : ndarray * ndarray :=
  let pts := map (fun p => f (fst p) (snd p)) (combine xs ys) in
  (map fst pts, map snd pts).

Definition on_arrays (f : R -> R -> R * R) (xs ys : ndarray)
  : result (ndarray * ndarray) :=
  if (List.length xs =? List.length ys)%nat
  then Ok (pointwise f xs ys)
  else Raise RuntimeError.

(** [p(xs, ys, inverse=inverse)] for a [Proj] [p]. *)
Definition call_proj (p : Proj) (xs ys : ndarray) (inverse : bool)
  : M (ndarray * ndarray) :=
  lift (on_arrays (pyproj_transform p inverse) xs ys).

(** [self.basemap(lon, lat)] on numbers and on arrays: the attribute may
    hold [None], which is not callable. *)
Definition call_basemap_point (bm : option Basemap) (lon lat : R) : M (R * R) :=
  match bm with
  | None => raise TypeError
  | Some b => ret (basemap_transform b lon lat)
  end.

Definition call_basemap (bm : option Basemap) (lons lats : ndarray)
  : M (ndarray * ndarray) :=
  match bm with
  | None => raise TypeError
  | Some b => lift (on_arrays (basemap_transform b) lons lats)
  end.

(** [Basemap(llcrnrlon=..., ...)]: a new object, unless the library rejects
    the arguments. *)
Definition Basemap_new (llcrnrlon llcrnrlat urcrnrlon urcrnrlat : R)
    (projection : string) (area_thresh : R) (resolution : string)
    (ax : Axis) (lat_0 lon_0 : R) : M Basemap :=
  id <- fresh ;;
  let bm := mkBasemap id llcrnrlon llcrnrlat urcrnrlon urcrnrlat
                      projection area_thresh resolution ax lat_0 lon_0 in
  lift (basemap_check bm) ;;
  ret bm.

Definition pcolormesh (bm : Basemap) (xd yd : ndarray) (data : marray)
    (vmin vmax : R) (cmap : string) : M Mesh :=
  id <- fresh ;;
  draw (Pcolormesh bm (mkMesh id) xd yd data vmin vmax cmap) ;;
  ret (mkMesh id).

Definition readshapefile (bm : Basemap) (file name : string) (ax : Axis) : M unit :=
  lift (shapefile_check file) ;;
  draw (Shapefile bm file name ax).

(** *** The base class *)

(** Modelled from the spec: [RadarDisplay.__init__] (pyart/graph/radardisplay.py
    is not among the sources); the artifact lists start empty and [loc] is the
    position of the radar. *)
Definition RadarDisplay_init (r : Radar) (shift : R * R) : RadarDisplay :=
  mkRadarDisplay r shift (radar_loc r) [] [] [].

(** Modelled from the spec: [RadarDisplay._parse_ax_fig] (not among the
    sources); an unset axis or figure is resolved to the current one. *)
Definition _parse_ax_fig (ax : option Axis) (fig : option Figure)
  : M (Axis * Figure) :=
  ax1 <- match ax with None => gca | Some a => ret a end ;;
  fig1 <- match fig with None => gcf | Some f => ret f end ;;
  ret (ax1, fig1).

Definition _parse_vmin_vmax (field : string) (vmin vmax : option R) : M (R * R) :=
  r <- getattr (fun s => radar (base s)) ;;
  lift (parse_vmin_vmax r field vmin vmax).

Definition _get_data (field : string) (sweep : Z) (mask_tuple : option (string * R))
  : M marray :=
  r <- getattr (fun s => radar (base s)) ;;
  lift (get_data r field sweep mask_tuple).

Definition _get_x_y (field : string) (sweep : Z) : M (ndarray * ndarray) :=
  r <- getattr (fun s => radar (base s)) ;;
  sh <- getattr (fun s => shift (base s)) ;;
  lift (get_x_y r sh field sweep).

(** Modelled from the spec: [RadarDisplay._set_title] (not among the
    sources); the default title is generated from the field and the sweep. *)
Definition _set_title (field : string) (sweep : Z) (title : option string)
    (ax : Axis) : M unit :=
  r <- getattr (fun s => radar (base s)) ;;
  draw (Title ax match title with
                 | None => generate_title r field sweep
                 | Some t => t
                 end).

Definition append_plots (pm : Mesh) (s : RadarMapDisplay) : RadarMapDisplay :=
  let b := base s in
  mkRadarMapDisplay
    (mkRadarDisplay (radar b) (shift b) (loc b) (plots b ++ [pm]) (plot_vars b) (cbs b))
    (basemap s) (proj s).

Definition append_plot_vars (field : string) (s : RadarMapDisplay) : RadarMapDisplay :=
  let b := base s in
  mkRadarMapDisplay
    (mkRadarDisplay (radar b) (shift b) (loc b) (plots b) (plot_vars b ++ [field]) (cbs b))
    (basemap s) (proj s).

Definition append_cbs (cb : Colorbar) (s : RadarMapDisplay) : RadarMapDisplay :=
  let b := base s in
  mkRadarMapDisplay
    (mkRadarDisplay (radar b) (shift b) (loc b) (plots b) (plot_vars b) (cbs b ++ [cb]))
    (basemap s) (proj s).

Definition set_basemap (bm : Basemap) (s : RadarMapDisplay) : RadarMapDisplay :=
  mkRadarMapDisplay (base s) (Some bm) (proj s).

(** Modelled from the spec: [RadarDisplay.plot_colorbar] (not among the
    sources); a colorbar keyed to the mesh is drawn on the figure and
    appended to the inherited colorbar list. *)
Definition plot_colorbar (mappable : Mesh) (label : option string)
    (field : string) (fig : Figure) : M unit :=
  r <- getattr (fun s => radar (base s)) ;;
  id <- fresh ;;
  draw (ColorbarOf fig (mkColorbar id) mappable
          match label with
          | None => generate_colorbar_label r field
          | Some l => l
          end) ;;
  setattr (append_cbs (mkColorbar id)).

(** *** RadarMapDisplay *)

Definition __init__ (r : Radar) (shift : R * R) : RadarMapDisplay :=
  let b := RadarDisplay_init r shift in
  mkRadarMapDisplay b None
    (mkProj "lcc" "NAD83" (fst (loc b)) (snd (loc b)) 0 0).

(** The keyword arguments of [plot_ppi_map]. *)
Record PpiMapArgs : Type := mkPpiMapArgs {
  sweep : Z;
  mask_tuple : option (string * R);
  vmin : option R;
  vmax : option R;
  cmap : string;
  mask_outside : bool;
  title : option string;
  title_flag : bool;
  colorbar_flag : bool;
  colorbar_label : option string;
  ax : option Axis;
  fig : option Figure;
  lat_lines : option ndarray;
  lon_lines : option ndarray;
  auto_range : bool;
  min_lon : R;
  max_lon : R;
  min_lat : R;
  max_lat : R;
  resolution : string;
  shapefile : option string
}.

(** Their default values. *)
Definition ppi_map_defaults : PpiMapArgs :=
  mkPpiMapArgs 0 None None None "jet" true None true true None None None
               None None true (-92) (-86) 40 44 "h" None.

Definition default_lat_lines : ndarray := map IZR (Np.arange 30 46 1).
Definition default_lon_lines : ndarray := map IZR (Np.arange (-110) (-75) 1).

(** The map region: the extent of the data, or the given corners. *)
Definition map_region (auto_range : bool) (lon lat : ndarray)
    (min_lon max_lon min_lat max_lat : R) : M (R * R * R * R) :=
  if auto_range then
    max_lat1 <- lift (Np.amax lat) ;;
    max_lon1 <- lift (Np.amax lon) ;;
    min_lat1 <- lift (Np.amin lat) ;;
    min_lon1 <- lift (Np.amin lon) ;;
    ret (min_lon1, max_lon1, min_lat1, max_lat1)
  else ret (min_lon, max_lon, min_lat, max_lat).

Definition plot_ppi_map (field : string) (o : PpiMapArgs) : M unit :=
  (* parse parameters *)
  '(ax1, fig1) <- _parse_ax_fig (ax o) (fig o) ;;
  '(vmin1, vmax1) <- _parse_vmin_vmax field (vmin o) (vmax o) ;;
  let lat_lines1 :=
    match lat_lines o with None => default_lat_lines | Some l => l end in
  let lon_lines1 :=
    match lon_lines o with None => default_lon_lines | Some l => l end in
  (* get data for the plot *)
  data <- _get_data field (sweep o) (mask_tuple o) ;;
  '(x, y) <- _get_x_y field (sweep o) ;;
  (* mask the data where outside the limits *)
  let data1 :=
    if mask_outside o then Np.masked_outside data vmin1 vmax1 else data in
  (* determine map region *)
  p <- getattr proj ;;
  '(lon, lat) <- call_proj p (Np.scale x 1000) (Np.scale y 1000) true ;;
  '(min_lon1, max_lon1, min_lat1, max_lat1) <-
     map_region (auto_range o) lon lat
                (min_lon o) (max_lon o) (min_lat o) (max_lat o) ;;
  (* plot the basemap *)
  l <- getattr (fun s => loc (base s)) ;;
  bm <- Basemap_new min_lon1 min_lat1 max_lon1 max_lat1 "lcc" 1000
                    (resolution o) ax1 (fst l) (snd l) ;;
  draw (Coastlines bm (125 / 100)) ;;
  draw (States bm) ;;
  draw (Parallels bm lat_lines1 [true; false; false; false]) ;;
  draw (Meridians bm lon_lines1 [false; false; false; true]) ;;
  setattr (set_basemap bm) ;;
  (* plot the data and optionally the shape file *)
  '(xd, yd) <- call_basemap (Some bm) lon lat ;;
  pm <- pcolormesh bm xd yd data1 vmin1 vmax1 (cmap o) ;;
  match shapefile o with
  | Some f => readshapefile bm f "shapefile" ax1
  | None => ret tt
  end ;;
  (if title_flag o then _set_title field (sweep o) (title o) ax1 else ret tt) ;;
  (* add plot and field to lists *)
  setattr (append_plots pm) ;;
  setattr (append_plot_vars field) ;;
  if colorbar_flag o
  then plot_colorbar pm (colorbar_label o) field fig1
  else ret tt.

Definition default_symbol : string := "ro".
Definition default_label_offset : list R := [5 / 100; 5 / 100].
Definition default_line_style : string := "r-".

Definition plot_point (lon lat : R) (symbol : string)
    (label_text : option string) (label_offset : list R) : M unit :=
  bm <- getattr basemap ;;
  '(xp, yp) <- call_basemap_point bm lon lat ;;
  a <- gca ;;
  draw (Line a [xp; xp] [yp; yp] symbol) ;;
  match label_text with
  | Some text =>
      o0 <- lift (Np.getitem label_offset 0) ;;
      o1 <- lift (Np.getitem label_offset 1) ;;
      let label_lonlat := [lon + o0; lat + o1] in
      bm1 <- getattr basemap ;;
      '(xl, yl) <- call_basemap_point bm1 lon lat ;;
      a1 <- gca ;;
      draw (Text a1 xl yl text)
  | None => ret tt
  end.

Definition plot_line_geo (line_lons line_lats : ndarray) (line_style : string)
  : M unit :=
  bm <- getattr basemap ;;
  '(xp, yp) <- call_basemap bm line_lons line_lats ;;
  a <- gca ;;
  draw (Line a xp yp line_style).

Definition plot_line_xy (line_x line_y : ndarray) (line_style : string) : M unit :=
  p <- getattr proj ;;
  '(lons, lats) <- call_proj p line_x line_y true ;;
  plot_line_geo lons lats line_style.

Definition plot_range_ring (radar_range : R) (line_style : string) : M unit :=
  let npts := 360%nat in
  let angle := Np.linspace 0 (2 * PI) npts in
  let xpts := Np.scaled_sin radar_range angle in
  let ypts := Np.scaled_cos radar_range angle in
  plot_line_xy xpts ypts line_style.

(** *** The words of the specification *)

(** The projection of radar-centred Cartesian coordinates (in metres) to
    longitudes and latitudes: the specification's [forward], which is the
    display's [Proj] called with [inverse=True]. *)
Definition cartesian_to_geographic (p : Proj) (xs ys : ndarray)
  : ndarray * ndarray :=
  pointwise (pyproj_transform p true) xs ys.

(** [plotLineXy(x, y) = plotLineGeo( *forward(x, y))], as the specification
    words it. *)
Definition plot_line_xy_spec (xs ys : ndarray) (style : string) : M unit :=
  p <- getattr proj ;;
  plot_line_geo (fst (cartesian_to_geographic p xs ys))
                (snd (cartesian_to_geographic p xs ys)) style.

(** [m] is the smallest, respectively the largest, element of [a]. *)
Definition is_min_of (a : ndarray) (m : R) : Prop :=
  In m a /\ Forall (fun v => m <= v) a.

Definition is_max_of (a : ndarray) (m : R) : Prop :=
  In m a /\ Forall (fun v => v <= m) a.

End Display.


(** ** A small backend to run the methods on

    One radar at 41N 88W whose sweep has the three gates (0,0), (1,0) and
    (0,1) km; the projections are replaced by an equirectangular stand-in
    (100 km to the degree), which is enough to execute every method. *)

Module Demo.

Definition sweep_x : ndarray := [0; 1; 0].
Definition sweep_y : ndarray := [0; 0; 1].

#[export] Instance backend : Backend := {|
  Radar := unit;
  radar_loc := fun _ => (41, -88);
  parse_vmin_vmax := fun _ _ lo hi =>
    Ok (match lo with Some v => v | None => -8 end,
        match hi with Some v => v | None => 64 end);
  get_data := fun _ _ _ _ => Ok [Some 10; Some 20; Some 30];
  get_x_y := fun _ _ _ _ => Ok (sweep_x, sweep_y);
  generate_title := fun _ field _ => field;
  generate_colorbar_label := fun _ field => field;
  pyproj_transform := fun p inverse x y =>
    if inverse
    then (proj_lon_0 p + x / 100000, proj_lat_0 p + y / 100000)
    else ((x - proj_lon_0 p) * 100000, (y - proj_lat_0 p) * 100000);
  basemap_transform := fun bm lon lat =>
    ((lon - llcrnrlon bm) * 100000, (lat - llcrnrlat bm) * 100000);
  basemap_check := fun _ => Ok tt;
  shapefile_check := fun _ => Ok tt
|}.

(** A display just constructed, nothing drawn yet. *)
Definition w0 : World :=
  mkWorld (__init__ (tt : @Radar backend) (0, 0)) 0%nat 0%nat 0%nat [].

(** The state after one and after two PPI plots with the default arguments. *)
Definition w1 : World := snd (plot_ppi_map "reflectivity" ppi_map_defaults w0).
Definition w2 : World := snd (plot_ppi_map "velocity" ppi_map_defaults w1).

(** A display whose basemap was set by hand. *)
Definition bm : Basemap :=
  mkBasemap 0%nat (-89) 40 (-87) 42 "lcc" 1000 "h" 0%nat 41 (-88).

Definition w_map : World :=
  mkWorld (set_basemap bm (__init__ (tt : @Radar backend) (0, 0))) 0%nat 0%nat 1%nat [].

End Demo.

(** ** Scripts: the methods called one after the other *)

Section Scripts.

Context {B : Backend}.

Inductive Call : Type :=
| PlotPpiMap (field : string) (o : PpiMapArgs)
| PlotPoint (lon lat : R) (symbol : string) (label_text : option string)
            (label_offset : list R)
| PlotLineGeo (line_lons line_lats : ndarray) (line_style : string)
| PlotLineXy (line_x line_y : ndarray) (line_style : string)
| PlotRangeRing (radar_range : R) (line_style : string).

Definition call (c : Call) : M unit :=
  match c with
  | PlotPpiMap field o => plot_ppi_map field o
  | PlotPoint lon lat symbol label_text label_offset =>
      plot_point lon lat symbol label_text label_offset
  | PlotLineGeo lons lats style => plot_line_geo lons lats style
  | PlotLineXy xs ys style => plot_line_xy xs ys style
  | PlotRangeRing r style => plot_range_ring r style
  end.

(** A script that goes on after an exception: every call runs in the
    state its predecessor left, whether that one returned or raised. *)
Fixpoint run_calls (cs : list Call) (w : World) : World :=
  match cs with
  | [] => w
  | c :: cs' => run_calls cs' (snd (call c w))
  end.

(** The display is consistent: one field per plot, the projection is the
    Lambert conformal conic one anchored at the radar, and so is the basemap
    when there is one. *)
Definition display_ok (s : RadarMapDisplay) : Prop :=
  List.length (plots (base s)) = List.length (plot_vars (base s)) /\
  proj s = mkProj "lcc" "NAD83" (fst (loc (base s))) (snd (loc (base s))) 0 0 /\
  forall bm : Basemap,
    basemap s = Some bm ->
    projection bm = "lcc"%string /\
    bm_lat_0 bm = proj_lat_0 (proj s) /\ bm_lon_0 bm = proj_lon_0 (proj s).

End Scripts.

(** ** Calls that differ in one argument *)

(** The same call with other corners, another title, another colorbar label. *)
Definition with_corners (o : PpiMapArgs) (a b c d : R) : PpiMapArgs :=
  mkPpiMapArgs (sweep o) (mask_tuple o) (vmin o) (vmax o) (cmap o) (mask_outside o)
    (title o) (title_flag o) (colorbar_flag o) (colorbar_label o) (ax o) (fig o)
    (lat_lines o) (lon_lines o) (auto_range o) a b c d (resolution o) (shapefile o).

Definition with_title (o : PpiMapArgs) (t : option string) : PpiMapArgs :=
  mkPpiMapArgs (sweep o) (mask_tuple o) (vmin o) (vmax o) (cmap o) (mask_outside o)
    t (title_flag o) (colorbar_flag o) (colorbar_label o) (ax o) (fig o)
    (lat_lines o) (lon_lines o) (auto_range o) (min_lon o) (max_lon o) (min_lat o)
    (max_lat o) (resolution o) (shapefile o).

Definition with_colorbar_label (o : PpiMapArgs) (l : option string) : PpiMapArgs :=
  mkPpiMapArgs (sweep o) (mask_tuple o) (vmin o) (vmax o) (cmap o) (mask_outside o)
    (title o) (title_flag o) (colorbar_flag o) l (ax o) (fig o)
    (lat_lines o) (lon_lines o) (auto_range o) (min_lon o) (max_lon o) (min_lat o)
    (max_lat o) (resolution o) (shapefile o).

(** ** Other backends to run the methods on

    The small backend with another sweep and another answer of the library
    to shapefiles. *)

Module Scenario.

Definition backend_with (xy : ndarray * ndarray) (shp : string -> result unit)
  : Backend := {|
  Radar := unit;
  radar_loc := fun _ => (41, -88);
  parse_vmin_vmax := fun _ _ lo hi =>
    Ok (match lo with Some v => v | None => -8 end,
        match hi with Some v => v | None => 64 end);
  get_data := fun _ _ _ _ => Ok (map (fun _ => Some 10) (fst xy));
  get_x_y := fun _ _ _ _ => Ok xy;
  generate_title := fun _ field _ => field;
  generate_colorbar_label := fun _ field => field;
  pyproj_transform := fun p inverse x y =>
    if inverse
    then (proj_lon_0 p + x / 100000, proj_lat_0 p + y / 100000)
    else ((x - proj_lon_0 p) * 100000, (y - proj_lat_0 p) * 100000);
  basemap_transform := fun bm lon lat =>
    ((lon - llcrnrlon bm) * 100000, (lat - llcrnrlat bm) * 100000);
  basemap_check := fun _ => Ok tt;
  shapefile_check := shp
|}.

(** A radar whose sweep has no gate. *)
Definition empty_sweep : Backend := backend_with ([], []) (fun _ => Ok tt).


Definition w0_empty : @World empty_sweep :=
  mkWorld (@__init__ empty_sweep tt (0, 0)) 0%nat 0%nat 0%nat [].



(** A script on the small backend, with calls that raise among those that
    return. *)
Definition script : list Call :=
  [PlotRangeRing 50000 "r-";
   PlotPpiMap "reflectivity" ppi_map_defaults;
   PlotPoint (-88) 41 "ro" (Some "KLOT"%string) [];
   PlotLineXy [0; 1000] [0] "r-";
   PlotPpiMap "velocity" ppi_map_defaults;
   PlotRangeRing 50000 "r-"].

End Scenario.

(** * Properties *)

(** ** numpy *)

Section NumpyFacts.

Lemma arange_30_46 :
  Np.arange 30 46 1 = [30; 31; 32; 33; 34; 35; 36; 37; 38; 39; 40; 41; 42; 43; 44; 45]%Z.
Proof. reflexivity. Qed.

Lemma arange_m110_m75 :
  Np.arange (-110) (-75) 1 =
  map (fun i => (-110 + Z.of_nat i)%Z) (seq 0 35).
Proof. reflexivity. Qed.

Lemma arange_length (start stop : Z) :
  List.length (Np.arange start stop 1) = Z.to_nat (stop - start).
Proof.
  unfold Np.arange. rewrite length_map, length_seq, Z.div_1_r.
  f_equal. lia.
Qed.

(** With a step of one, [arange] holds the integers of [start <= k < stop]. *)
Lemma arange_In (start stop k : Z) :
  In k (Np.arange start stop 1) <-> (start <= k < stop)%Z.
Proof.
  unfold Np.arange. rewrite Z.div_1_r, in_map_iff. split.
  - intros (i & <- & Hi). apply in_seq in Hi. lia.
  - intros Hk. exists (Z.to_nat (k - start)). split; [lia |].
    apply in_seq. lia.
Qed.

(** [linspace] on two points or more: the regular samples, of which the
    last is replaced by [stop]. *)
Lemma linspace_unfold (start stop : R) (n : nat) :
  Np.linspace start stop (S (S n)) =
  map (fun i => INR i * ((stop - start) / INR (S n)) + start) (seq 0 (S n))
  ++ [stop].
Proof.
  unfold Np.linspace.
  replace (S (S n) - 1)%nat with (S n) by lia.
  replace (1 <? S (S n))%nat with true by (symmetry; apply Nat.ltb_lt; lia).
  rewrite (seq_S (S n) 0), map_app. cbn [map].
  now rewrite removelast_last.
Qed.

Lemma linspace_length (start stop : R) (num : nat) :
  List.length (Np.linspace start stop num) = num.
Proof.
  destruct num as [| [| n]]; [reflexivity | reflexivity |].
  rewrite linspace_unfold, length_app, length_map, length_seq. cbn. lia.
Qed.

(** The samples are at the multiples of [(stop - start) / (num - 1)]. *)
Lemma linspace_nth (start stop : R) (n i : nat) :
  (i <= S n)%nat ->
  nth i (Np.linspace start stop (S (S n))) 0 =
  start + INR i * ((stop - start) / INR (S n)).
Proof.
  intros Hi. rewrite linspace_unfold.
  assert (Hn : INR (S n) <> 0) by (apply not_0_INR; lia).
  destruct (Nat.eq_dec i (S n)) as [-> | Hne].
  - rewrite app_nth2; rewrite length_map, length_seq; [| lia].
    rewrite Nat.sub_diag. cbn [nth]. field. exact Hn.
  - set (f := fun k => INR k * ((stop - start) / INR (S n)) + start).
    rewrite app_nth1 by (rewrite length_map, length_seq; lia).
    rewrite (nth_indep _ 0 (f 0%nat)) by (rewrite length_map, length_seq; lia).
    rewrite (map_nth f), seq_nth by lia. unfold f. cbn [Nat.add]. ring.
Qed.

Lemma linspace_hd (start stop : R) (n : nat) :
  hd 0 (Np.linspace start stop (S (S n))) = start.
Proof.
  rewrite linspace_unfold. cbn [seq map app hd INR]. ring.
Qed.

Lemma linspace_last (start stop : R) (n : nat) :
  last (Np.linspace start stop (S (S n))) 0 = stop.
Proof. rewrite linspace_unfold. apply last_last. Qed.

(** Every sample lies between the two ends. *)
Lemma linspace_bounds (start stop : R) (n : nat) (a : R) :
  start <= stop ->
  In a (Np.linspace start stop (S (S n))) -> start <= a <= stop.
Proof.
  intros Hle Ha. rewrite linspace_unfold in Ha.
  apply in_app_or in Ha. destruct Ha as [Ha | [<- | []]]; [| lra].
  apply in_map_iff in Ha. destruct Ha as (i & <- & Hi).
  apply in_seq in Hi.
  assert (Hn : 0 < INR (S n)) by (apply lt_0_INR; lia).
  assert (H0 : 0 <= INR i) by apply pos_INR.
  assert (H1 : INR i <= INR (S n)) by (apply le_INR; lia).
  assert (Hq : INR i * ((stop - start) / INR (S n)) =
               (stop - start) * (INR i / INR (S n))) by (field; lra).
  rewrite Hq.
  assert (Hr : 0 <= INR i / INR (S n) <= 1).
  { split.
    - apply Rmult_le_pos; [lra | left; now apply Rinv_0_lt_compat].
    - apply Rmult_le_reg_r with (INR (S n)); [lra |].
      unfold Rdiv. rewrite Rmult_assoc, Rinv_l by lra. lra. }
  nra.
Qed.

(** [amax] and [amin] return the largest and the smallest element. *)
Lemma fold_Rmax_spec (l : list R) (v : R) :
  (fold_left Rmax l v = v \/ In (fold_left Rmax l v) l) /\
  v <= fold_left Rmax l v /\
  Forall (fun u => u <= fold_left Rmax l v) l.
Proof.
  revert v. induction l as [| u l IH]; intros v; cbn [fold_left].
  - repeat split; [now left | lra | constructor].
  - destruct (IH (Rmax v u)) as (Hin & Hle & Hall).
    pose proof (Rmax_l v u). pose proof (Rmax_r v u).
    repeat split.
    + destruct Hin as [Heq | Hin]; [| right; now right].
      rewrite Heq. unfold Rmax. destruct (Rle_dec v u); [right; now left | now left].
    + lra.
    + constructor; [lra | exact Hall].
Qed.

Lemma fold_Rmin_spec (l : list R) (v : R) :
  (fold_left Rmin l v = v \/ In (fold_left Rmin l v) l) /\
  fold_left Rmin l v <= v /\
  Forall (fun u => fold_left Rmin l v <= u) l.
Proof.
  revert v. induction l as [| u l IH]; intros v; cbn [fold_left].
  - repeat split; [now left | lra | constructor].
  - destruct (IH (Rmin v u)) as (Hin & Hle & Hall).
    pose proof (Rmin_l v u). pose proof (Rmin_r v u).
    repeat split.
    + destruct Hin as [Heq | Hin]; [| right; now right].
      rewrite Heq. unfold Rmin. destruct (Rle_dec v u); [now left | right; now left].
    + lra.
    + constructor; [lra | exact Hall].
Qed.

Lemma amax_spec (a : ndarray) (m : R) :
  Np.amax a = Ok m -> In m a /\ Forall (fun v => v <= m) a.
Proof.
  destruct a as [| v a]; cbn; [discriminate |].
  intros [= <-]. destruct (fold_Rmax_spec a v) as (Hin & Hle & Hall).
  split; [| now constructor].
  destruct Hin as [-> | Hin]; [now left | now right].
Qed.

Lemma amin_spec (a : ndarray) (m : R) :
  Np.amin a = Ok m -> In m a /\ Forall (fun v => m <= v) a.
Proof.
  destruct a as [| v a]; cbn; [discriminate |].
  intros [= <-]. destruct (fold_Rmin_spec a v) as (Hin & Hle & Hall).
  split; [| now constructor].
  destruct Hin as [-> | Hin]; [now left | now right].
Qed.

Lemma combine_map_same {A C D : Type} (f : A -> C) (g : A -> D) (l : list A) :
  combine (map f l) (map g l) = map (fun a => (f a, g a)) l.
Proof. induction l as [| a l IH]; cbn; [reflexivity | now rewrite IH]. Qed.

End NumpyFacts.

(** ** Running the methods *)

Section Runs.

Context {B : Backend}.

Lemma bind_ok {A C : Type} (m : M A) (f : A -> M C) (w w' : World) (c : C) :
  bind m f w = (Ok c, w') ->
  exists a w1, m w = (Ok a, w1) /\ f a w1 = (Ok c, w').
Proof.
  unfold bind. destruct (m w) as [[a | e] w1]; [eauto | discriminate].
Qed.

Lemma lift_ok {A : Type} (r : result A) (w w' : World) (a : A) :
  lift r w = (Ok a, w') -> r = Ok a /\ w' = w.
Proof. unfold lift. now intros [= -> ->]. Qed.

Lemma parse_ax_fig_run (a : option Axis) (f : option Figure) (w : World) :
  _parse_ax_fig a f w =
  (Ok (match a with None => cur_ax w | Some a1 => a1 end,
       match f with None => cur_fig w | Some f1 => f1 end), w).
Proof. destruct a, f; reflexivity. Qed.

Lemma map_region_ok (auto : bool) (lon lat : ndarray) (a b c d : R)
    (w w' : World) (mnlo mxlo mnla mxla : R) :
  map_region auto lon lat a b c d w = (Ok (mnlo, mxlo, mnla, mxla), w') ->
  w' = w /\
  if auto
  then Np.amin lon = Ok mnlo /\ Np.amax lon = Ok mxlo /\
       Np.amin lat = Ok mnla /\ Np.amax lat = Ok mxla
  else mnlo = a /\ mxlo = b /\ mnla = c /\ mxla = d.
Proof.
  unfold map_region, bind, lift, ret. destruct auto.
  - destruct (Np.amax lat); [| discriminate].
    destruct (Np.amax lon); [| discriminate].
    destruct (Np.amin lat); [| discriminate].
    destruct (Np.amin lon); [| discriminate].
    now intros [= -> -> -> -> ->].
  - now intros [= -> -> -> -> ->].
Qed.

(** What a successful [plot_ppi_map] has done. *)
Lemma plot_ppi_map_ok (field : string) (o : PpiMapArgs) (w w' : World) :
  plot_ppi_map field o w = (Ok tt, w') ->
  exists (vmin1 vmax1 : R) (data : marray) (x y lon lat : ndarray)
         (mnlo mxlo mnla mxla : R) (xd yd : ndarray),
    let s := self w in
    let b := base s in
    let ax1 := match ax o with None => cur_ax w | Some a => a end in
    let fig1 := match fig o with None => cur_fig w | Some f => f end in
    let bm := mkBasemap (next_id w) mnlo mnla mxlo mxla "lcc" 1000
                        (resolution o) ax1 (fst (loc b)) (snd (loc b)) in
    let pm := mkMesh (S (next_id w)) in
    let cb := mkColorbar (S (S (next_id w))) in
    parse_vmin_vmax (radar b) field (vmin o) (vmax o) = Ok (vmin1, vmax1) /\
    get_data (radar b) field (sweep o) (mask_tuple o) = Ok data /\
    get_x_y (radar b) (shift b) field (sweep o) = Ok (x, y) /\
    on_arrays (pyproj_transform (proj s) true) (Np.scale x 1000) (Np.scale y 1000)
      = Ok (lon, lat) /\
    (if auto_range o
     then Np.amin lon = Ok mnlo /\ Np.amax lon = Ok mxlo /\
          Np.amin lat = Ok mnla /\ Np.amax lat = Ok mxla
     else mnlo = min_lon o /\ mxlo = max_lon o /\
          mnla = min_lat o /\ mxla = max_lat o) /\
    on_arrays (basemap_transform bm) lon lat = Ok (xd, yd) /\
    self w' =
      mkRadarMapDisplay
        (mkRadarDisplay (radar b) (shift b) (loc b)
           (plots b ++ [pm]) (plot_vars b ++ [field])
           (cbs b ++ if colorbar_flag o then [cb] else []))
        (Some bm) (proj s) /\
    drawn w' =
      drawn w ++
      [Coastlines bm (125 / 100); States bm;
       Parallels bm match lat_lines o with None => default_lat_lines | Some l => l end
                 [true; false; false; false];
       Meridians bm match lon_lines o with None => default_lon_lines | Some l => l end
                 [false; false; false; true];
       Pcolormesh bm pm xd yd
         (if mask_outside o then Np.masked_outside data vmin1 vmax1 else data)
         vmin1 vmax1 (cmap o)] ++
      match shapefile o with
      | Some f => [Shapefile bm f "shapefile" ax1]
      | None => []
      end ++
      (if title_flag o
       then [Title ax1 match title o with
                       | None => generate_title (radar b) field (sweep o)
                       | Some t => t
                       end]
       else []) ++
      (if colorbar_flag o
       then [ColorbarOf fig1 cb pm
               match colorbar_label o with
               | None => generate_colorbar_label (radar b) field
               | Some l => l
               end]
       else []) /\
    next_id w' = (next_id w + if colorbar_flag o then 3 else 2)%nat /\
    cur_ax w' = cur_ax w /\ cur_fig w' = cur_fig w.
Proof.
  intros H. unfold plot_ppi_map in H.
  apply bind_ok in H. destruct H as ([ax1 fig1] & w1 & H1 & H).
  rewrite parse_ax_fig_run in H1. injection H1 as <- <- <-.
  apply bind_ok in H. destruct H as ([vmin1 vmax1] & w1 & H1 & H).
  change (_parse_vmin_vmax field (vmin o) (vmax o) w)
    with (parse_vmin_vmax (radar (base (self w))) field (vmin o) (vmax o), w) in H1.
  injection H1 as Hv <-.
  apply bind_ok in H. destruct H as (data & w1 & H1 & H).
  change (_get_data field (sweep o) (mask_tuple o) w)
    with (get_data (radar (base (self w))) field (sweep o) (mask_tuple o), w) in H1.
  injection H1 as Hd <-.
  apply bind_ok in H. destruct H as ([x y] & w1 & H1 & H).
  change (_get_x_y field (sweep o) w)
    with (get_x_y (radar (base (self w))) (shift (base (self w))) field (sweep o), w) in H1.
  injection H1 as Hxy <-.
  apply bind_ok in H. destruct H as (p & w1 & H1 & H).
  injection H1 as <- <-.
  apply bind_ok in H. destruct H as ([lon lat] & w1 & H1 & H).
  apply lift_ok in H1. destruct H1 as [Hll ->].
  apply bind_ok in H. destruct H as ([[[mnlo mxlo] mnla] mxla] & w1 & H1 & H).
  apply map_region_ok in H1. destruct H1 as [-> Hreg].
  apply bind_ok in H. destruct H as (l & w1 & H1 & H).
  injection H1 as <- <-.
  apply bind_ok in H. destruct H as (bm & w1 & H1 & H).
  unfold Basemap_new in H1.
  apply bind_ok in H1. destruct H1 as (id & w2 & H2 & H1).
  injection H2 as <- <-.
  apply bind_ok in H1. destruct H1 as ([] & w2 & H2 & H1).
  apply lift_ok in H2. destruct H2 as [Hchk ->].
  injection H1 as <- <-.
  apply bind_ok in H. destruct H as ([] & w1 & H1 & H). injection H1 as <-.
  apply bind_ok in H. destruct H as ([] & w1 & H1 & H). injection H1 as <-.
  apply bind_ok in H. destruct H as ([] & w1 & H1 & H). injection H1 as <-.
  apply bind_ok in H. destruct H as ([] & w1 & H1 & H). injection H1 as <-.
  apply bind_ok in H. destruct H as ([] & w1 & H1 & H). injection H1 as <-.
  apply bind_ok in H. destruct H as ([xd yd] & w1 & H1 & H).
  apply lift_ok in H1. destruct H1 as [Hxd ->].
  apply bind_ok in H. destruct H as (pm & w1 & H1 & H).
  injection H1 as <- <-.
  exists vmin1, vmax1, data, x, y, lon, lat, mnlo, mxlo, mnla, mxla, xd, yd.
  cbv zeta. cbn [self next_id drawn cur_ax cur_fig] in *.
  do 6 (split; [assumption |]).
  destruct (shapefile o) as [f |], (title_flag o), (colorbar_flag o);
    cbv [bind ret draw setattr _set_title plot_colorbar getattr fresh
         readshapefile lift] in H;
    cbn [self next_id drawn cur_ax cur_fig] in H;
    try (destruct (shapefile_check f) as [[] | e]; [| discriminate H]);
    injection H as <-;
    cbn [self next_id drawn cur_ax cur_fig append_plots append_plot_vars append_cbs
         set_basemap base basemap proj radar shift loc plots plot_vars cbs];
    rewrite <- ?app_assoc; cbn [app]; rewrite ?app_nil_r;
    (repeat split; try reflexivity; lia).
Qed.


Lemma on_arrays_ok (f : R -> R -> R * R) (xs ys : ndarray) (r : ndarray * ndarray) :
  on_arrays f xs ys = Ok r ->
  List.length xs = List.length ys /\ r = pointwise f xs ys.
Proof.
  unfold on_arrays. destruct (Nat.eqb_spec (List.length xs) (List.length ys)).
  - now intros [= <-].
  - discriminate.
Qed.

Lemma on_arrays_same_length (f : R -> R -> R * R) (xs ys : ndarray) :
  List.length xs = List.length ys -> on_arrays f xs ys = Ok (pointwise f xs ys).
Proof. intros H. unfold on_arrays. now rewrite H, Nat.eqb_refl. Qed.

Lemma pointwise_lengths (f : R -> R -> R * R) (xs ys : ndarray) :
  List.length (fst (pointwise f xs ys)) = List.length (snd (pointwise f xs ys)).
Proof. unfold pointwise. cbn. now rewrite !length_map. Qed.

(** A polyline through longitudes and latitudes, once a basemap is there. *)
Lemma plot_line_geo_run (lons lats : ndarray) (style : string) (w : World)
    (bm : Basemap) :
  basemap (self w) = Some bm ->
  List.length lons = List.length lats ->
  plot_line_geo lons lats style w =
  draw (Line (cur_ax w) (fst (pointwise (basemap_transform bm) lons lats))
             (snd (pointwise (basemap_transform bm) lons lats)) style) w.
Proof.
  intros Hbm Hlen. unfold plot_line_geo, bind, getattr, call_basemap, lift, gca.
  rewrite Hbm, (on_arrays_same_length _ _ _ Hlen).
  now destruct (pointwise (basemap_transform bm) lons lats).
Qed.

(** [plot_line_xy] on arrays of equal length: the projection, then
    [plot_line_geo]. *)
Lemma plot_line_xy_run (xs ys : ndarray) (style : string) (w : World) :
  List.length xs = List.length ys ->
  plot_line_xy xs ys style w =
  plot_line_geo (fst (pointwise (pyproj_transform (proj (self w)) true) xs ys))
                (snd (pointwise (pyproj_transform (proj (self w)) true) xs ys))
                style w.
Proof.
  intros Hlen. unfold plot_line_xy, call_proj.
  unfold bind at 1 2. unfold getattr at 1. unfold lift.
  rewrite (on_arrays_same_length _ _ _ Hlen).
  now destruct (pointwise (pyproj_transform (proj (self w)) true) xs ys).
Qed.

(** ** The overlay methods *)

(** C1. On coordinate arrays of equal length (of two points or more, or
    fewer), [plot_line_xy xs ys style] is [plot_line_geo lons lats style] for
    the projection [(lons, lats)] of [(xs, ys)] from radar-centred Cartesian
    to geographic coordinates: the two calls return the same result, draw
    the same polyline and leave the same state, so [plot_line_xy] does
    nothing but the conversion and the delegation. *)
Theorem plot_line_xy_refines_spec (xs ys : ndarray) (style : string) (w : World) :
  List.length xs = List.length ys ->
  plot_line_xy xs ys style w = plot_line_xy_spec xs ys style w /\
  plot_line_xy xs ys style w =
  plot_line_geo (fst (cartesian_to_geographic (proj (self w)) xs ys))
                (snd (cartesian_to_geographic (proj (self w)) xs ys)) style w.
Proof.
  intros Hlen.
  assert (E : plot_line_xy xs ys style w =
              plot_line_geo (fst (cartesian_to_geographic (proj (self w)) xs ys))
                (snd (cartesian_to_geographic (proj (self w)) xs ys)) style w).
  { unfold cartesian_to_geographic. now apply plot_line_xy_run. }
  split; [| exact E].
  rewrite E. reflexivity.
Qed.

(** C5. On a display that has just been constructed ([basemap] is [None]),
    [plot_point] and [plot_line_geo] raise [TypeError], whatever their
    arguments, and draw nothing. *)
Theorem overlay_before_ppi_map_fails (r : Radar) (sh : R * R)
    (cax : Axis) (cfig : Figure) (n : nat) (d : list Artist)
    (lon lat : R) (symbol : string) (label_text : option string)
    (label_offset : list R) (lons lats : ndarray) (style : string) :
  let w := mkWorld (__init__ r sh) cax cfig n d in
  basemap (self w) = None /\
  plot_point lon lat symbol label_text label_offset w = (Raise TypeError, w) /\
  plot_line_geo lons lats style w = (Raise TypeError, w).
Proof. cbv zeta. repeat split. Qed.

(** C7. With a label text and a two-component offset, [plot_point] draws
    the marker and then the text, both at the map position of [(lon, lat)]:
    the offset does not appear in what is drawn, and two calls that differ
    only in the offset have the same outcome. *)
Theorem plot_point_label_ignores_offset (lon lat : R) (symbol text : string)
    (ox oy : R) (w : World) (bm : Basemap) :
  basemap (self w) = Some bm ->
  let xp := fst (basemap_transform bm lon lat) in
  let yp := snd (basemap_transform bm lon lat) in
  plot_point lon lat symbol (Some text) [ox; oy] w =
    (Ok tt,
     mkWorld (self w) (cur_ax w) (cur_fig w) (next_id w)
       (drawn w ++ [Line (cur_ax w) [xp; xp] [yp; yp] symbol;
                    Text (cur_ax w) xp yp text])) /\
  forall ox' oy' : R,
    plot_point lon lat symbol (Some text) [ox'; oy'] w =
    plot_point lon lat symbol (Some text) [ox; oy] w.
Proof.
  intros Hbm. cbv zeta.
  assert (E : forall a b : R,
             plot_point lon lat symbol (Some text) [a; b] w =
             (Ok tt,
              mkWorld (self w) (cur_ax w) (cur_fig w) (next_id w)
                (drawn w ++
                 [Line (cur_ax w)
                    [fst (basemap_transform bm lon lat); fst (basemap_transform bm lon lat)]
                    [snd (basemap_transform bm lon lat); snd (basemap_transform bm lon lat)]
                    symbol;
                  Text (cur_ax w) (fst (basemap_transform bm lon lat))
                    (snd (basemap_transform bm lon lat)) text]))).
  { intros a b.
    unfold plot_point, bind, getattr, call_basemap_point, gca, draw, lift, ret.
    cbn [Np.getitem nth_error self cur_ax cur_fig next_id drawn].
    rewrite Hbm. destruct (basemap_transform bm lon lat) as [xp yp] eqn:Exy.
    cbn [fst snd self cur_ax cur_fig next_id drawn]. rewrite Hbm, Exy.
    cbn [self cur_ax cur_fig next_id drawn]. now rewrite <- app_assoc. }
  split; [apply E |]. intros ox' oy'. now rewrite !E.
Qed.

(** C10. The four overlay methods leave the display object as it was,
    whether they return or raise: its basemap, its projection and its
    lists [plots] and [plot_vars] are those of before the call. *)
Theorem overlay_preserves_display (w : World) :
  (forall lon lat symbol label_text label_offset,
     self (snd (plot_point lon lat symbol label_text label_offset w)) = self w) /\
  (forall lons lats style,
     self (snd (plot_line_geo lons lats style w)) = self w) /\
  (forall xs ys style,
     self (snd (plot_line_xy xs ys style w)) = self w) /\
  (forall radar_range style,
     self (snd (plot_range_ring radar_range style w)) = self w).
Proof.
  assert (Hgeo : forall lons lats style,
             self (snd (plot_line_geo lons lats style w)) = self w).
  { intros. unfold plot_line_geo, bind, getattr, call_basemap, lift, raise, gca, draw.
    destruct (basemap (self w)) as [bm |]; [| reflexivity].
    destruct (on_arrays (basemap_transform bm) lons lats) as [[xp yp] | e];
      reflexivity. }
  assert (Hxy : forall xs ys style,
             self (snd (plot_line_xy xs ys style w)) = self w).
  { intros. unfold plot_line_xy, call_proj.
    unfold bind at 1 2. unfold getattr at 1. unfold lift.
    destruct (on_arrays (pyproj_transform (proj (self w)) true) xs ys)
      as [[lons lats] | e]; [apply Hgeo | reflexivity]. }
  repeat split; [| exact Hgeo | exact Hxy | intros; apply Hxy].
  intros. unfold plot_point, bind, getattr, call_basemap_point, raise, ret, gca, draw, lift.
  destruct (basemap (self w)) as [bm |] eqn:Hbm; [| reflexivity].
  destruct (basemap_transform bm lon lat) as [xp yp] eqn:Exy.
  cbn [self cur_ax cur_fig next_id drawn].
  destruct label_text as [text |]; [| reflexivity].
  destruct (Np.getitem label_offset 0); [| reflexivity].
  destruct (Np.getitem label_offset 1); [| reflexivity].
  cbn [self cur_ax cur_fig next_id drawn]. rewrite Hbm, Exy. reflexivity.
Qed.

(** ** The range ring *)

Lemma map_linspace_hd (f : R -> R) (start stop : R) (n : nat) :
  hd 0 (map f (Np.linspace start stop (S (S n)))) = f start.
Proof.
  rewrite linspace_unfold. cbn [seq map app hd INR]. f_equal. ring.
Qed.

Lemma INR_359 : INR 359 = 359.
Proof. rewrite INR_IZR_INZ. reflexivity. Qed.

(** C8, as the code has it.  The 360 angles of [plot_range_ring] start at 0
    and are [2 * PI / 359] apart: [np.linspace] counts both ends, so the
    last angle is [2 * PI] and the angles span the closed interval
    [[0, 2 * PI]]. *)
Theorem range_ring_angles (radar_range : R) (style : string) :
  let angle := Np.linspace 0 (2 * PI) 360 in
  plot_range_ring radar_range style =
    plot_line_xy (Np.scaled_sin radar_range angle)
                 (Np.scaled_cos radar_range angle) style /\
  List.length angle = 360%nat /\
  (forall i : nat, (i < 360)%nat -> nth i angle 0 = INR i * (2 * PI / 359)) /\
  hd 0 angle = 0 /\
  last angle 0 = 2 * PI /\
  (forall a : R, In a angle -> 0 <= a <= 2 * PI).
Proof.
  cbv zeta. split; [reflexivity |].
  split; [apply linspace_length |].
  pose proof PI_RGT_0 as Hpi.
  change 360%nat with (S (S 358)).
  split; [| split; [| split]].
  - intros i Hi. rewrite linspace_nth by lia. rewrite INR_359. lra.
  - rewrite <- (map_id (Np.linspace 0 (2 * PI) (S (S 358)))).
    apply (map_linspace_hd (fun a => a)).
  - apply linspace_last.
  - intros a Ha. eapply linspace_bounds; [lra | eassumption].
Qed.

End Runs.

(** C8, as stated, fails: the angle step is not [2 * PI / 360], and the
    angles do not stay below [2 * PI]. *)
Lemma range_ring_angles_not_half_open :
  nth 1 (Np.linspace 0 (2 * PI) 360) 0 - nth 0 (Np.linspace 0 (2 * PI) 360) 0
    <> 2 * PI / 360 /\
  ~ (forall a : R, In a (Np.linspace 0 (2 * PI) 360) -> 0 <= a < 2 * PI).
Proof.
  pose proof PI_RGT_0 as Hpi.
  change 360%nat with (S (S 358)). split.
  - rewrite !linspace_nth by lia. rewrite INR_359. cbn [INR]. lra.
  - intros H. specialize (H (2 * PI)).
    assert (Hin : In (2 * PI) (Np.linspace 0 (2 * PI) (S (S 358)))).
    { rewrite linspace_unfold. apply in_or_app. right. now left. }
    apply H in Hin. lra.
Qed.

(** ** The PPI map *)

Section PpiMap.

Context {B : Backend}.

(** A marker without label, once a basemap is there. *)
Lemma plot_point_run (lon lat : R) (symbol : string) (label_offset : list R)
    (w : World) (bm : Basemap) :
  basemap (self w) = Some bm ->
  plot_point lon lat symbol None label_offset w =
  draw (Line (cur_ax w)
          [fst (basemap_transform bm lon lat); fst (basemap_transform bm lon lat)]
          [snd (basemap_transform bm lon lat); snd (basemap_transform bm lon lat)]
          symbol) w.
Proof.
  intros Hbm. unfold plot_point, bind, getattr, call_basemap_point, gca, ret.
  rewrite Hbm. now destruct (basemap_transform bm lon lat).
Qed.

(** C3. After a successful [plot_ppi_map], the corners of the stored basemap
    are, with [auto_range], the smallest and the largest longitude and
    latitude of the projected sweep, and without it the four arguments
    [min_lon], [max_lon], [min_lat], [max_lat] as given. *)
Theorem plot_ppi_map_extent (field : string) (o : PpiMapArgs) (w w' : World) :
  plot_ppi_map field o w = (Ok tt, w') ->
  exists (x y lon lat : ndarray) (bm : Basemap),
    get_x_y (radar (base (self w))) (shift (base (self w))) field (sweep o)
      = Ok (x, y) /\
    (lon, lat) =
      cartesian_to_geographic (proj (self w)) (Np.scale x 1000) (Np.scale y 1000) /\
    basemap (self w') = Some bm /\
    if auto_range o
    then is_min_of lon (llcrnrlon bm) /\ is_max_of lon (urcrnrlon bm) /\
         is_min_of lat (llcrnrlat bm) /\ is_max_of lat (urcrnrlat bm)
    else llcrnrlon bm = min_lon o /\ urcrnrlon bm = max_lon o /\
         llcrnrlat bm = min_lat o /\ urcrnrlat bm = max_lat o.
Proof.
  intros H. apply plot_ppi_map_ok in H.
  destruct H as (vmin1 & vmax1 & data & x & y & lon & lat & mnlo & mxlo & mnla
                 & mxla & xd & yd & H).
  cbv zeta in H.
  destruct H as (_ & _ & Hxy & Hll & Hreg & _ & Hself & _).
  apply on_arrays_ok in Hll. destruct Hll as [_ Hll].
  eexists x, y, lon, lat, _. rewrite Hself. cbn [basemap].
  split; [exact Hxy |]. split; [exact Hll |]. split; [reflexivity |].
  cbn [llcrnrlon llcrnrlat urcrnrlon urcrnrlat].
  destruct (auto_range o).
  - destruct Hreg as (H1 & H2 & H3 & H4).
    unfold is_min_of, is_max_of.
    apply amin_spec in H1, H3. apply amax_spec in H2, H4. tauto.
  - exact Hreg.
Qed.

(** C4. Two successful calls of [plot_ppi_map] append two entries to
    [plots] and to [plot_vars]: the mesh and the field of the first call,
    then those of the second.  Each mesh was drawn on the basemap its call
    constructed; the two basemaps are different objects, the stored one is
    that of the second call, and it is the one overlay methods then use. *)
Theorem plot_ppi_map_twice (field1 field2 : string) (o1 o2 : PpiMapArgs)
    (w0 w1 w2 : World) :
  plot_ppi_map field1 o1 w0 = (Ok tt, w1) ->
  plot_ppi_map field2 o2 w1 = (Ok tt, w2) ->
  exists (pm1 pm2 : Mesh) (bm1 bm2 : Basemap) (d1 d2 : list Artist),
    plots (base (self w2)) = plots (base (self w0)) ++ [pm1; pm2] /\
    plot_vars (base (self w2)) = plot_vars (base (self w0)) ++ [field1; field2] /\
    drawn w1 = drawn w0 ++ d1 /\ drawn w2 = drawn w1 ++ d2 /\
    (exists xd yd data lo hi c, In (Pcolormesh bm1 pm1 xd yd data lo hi c) d1) /\
    (exists xd yd data lo hi c, In (Pcolormesh bm2 pm2 xd yd data lo hi c) d2) /\
    In (Coastlines bm1 (125 / 100)) d1 /\ In (Coastlines bm2 (125 / 100)) d2 /\
    basemap (self w1) = Some bm1 /\
    basemap (self w2) = Some bm2 /\
    bm1 <> bm2 /\ pm1 <> pm2 /\
    forall (lon lat : R) (symbol : string) (label_offset : list R),
      plot_point lon lat symbol None label_offset w2 =
      draw (Line (cur_ax w2)
              [fst (basemap_transform bm2 lon lat); fst (basemap_transform bm2 lon lat)]
              [snd (basemap_transform bm2 lon lat); snd (basemap_transform bm2 lon lat)]
              symbol) w2.
Proof.
  intros H1 H2. apply plot_ppi_map_ok in H1, H2.
  destruct H1 as (lo1 & hi1 & data1 & x1 & y1 & lon1 & lat1 & a1 & b1 & c1
                  & e1 & xd1 & yd1 & H1).
  destruct H2 as (lo2 & hi2 & data2 & x2 & y2 & lon2 & lat2 & a2 & b2 & c2
                  & e2 & xd2 & yd2 & H2).
  cbv zeta in H1, H2.
  destruct H1 as (_ & _ & _ & _ & _ & _ & Hs1 & Hd1 & Hn1 & _).
  destruct H2 as (_ & _ & _ & _ & _ & _ & Hs2 & Hd2 & Hn2 & _).
  eexists _, _, _, _, _, _.
  split; [| split; [| split; [exact Hd1 | split; [exact Hd2 |]]]].
  - rewrite Hs2. cbn [base plots]. rewrite Hs1. cbn [base plots].
    rewrite <- app_assoc. reflexivity.
  - rewrite Hs2. cbn [base plot_vars]. rewrite Hs1. cbn [base plot_vars].
    rewrite <- app_assoc. reflexivity.
  - split; [do 6 eexists; cbn [app In]; do 4 right; left; reflexivity |].
    split; [do 6 eexists; cbn [app In]; do 4 right; left; reflexivity |].
    split; [now left |]. split; [now left |].
    split; [now rewrite Hs1 |]. split; [now rewrite Hs2 |].
    split; [| split].
    + intros E. apply (f_equal bm_id) in E. cbn [bm_id] in E.
      destruct (colorbar_flag o1); lia.
    + intros E. apply (f_equal mesh_id) in E. cbn [mesh_id] in E.
      destruct (colorbar_flag o1); lia.
    + intros. apply plot_point_run. now rewrite Hs2.
Qed.

Lemma pointwise_length_fst (f : R -> R -> R * R) (xs ys : ndarray) :
  List.length xs = List.length ys ->
  List.length (fst (pointwise f xs ys)) = List.length xs.
Proof.
  intros H. unfold pointwise. cbn [fst].
  rewrite !length_map, length_combine, H. apply Nat.min_id.
Qed.

(** A transformation of two arrays of one length, vertex by vertex. *)
Lemma pointwise_nth (f : R -> R -> R * R) (xs ys : ndarray) (i : nat) :
  List.length xs = List.length ys ->
  (i < List.length xs)%nat ->
  (nth i (fst (pointwise f xs ys)) 0, nth i (snd (pointwise f xs ys)) 0) =
  f (nth i xs 0) (nth i ys 0).
Proof.
  intros Hlen Hi. unfold pointwise. cbn [fst snd]. rewrite !map_map.
  assert (Hc : (i < List.length (combine xs ys))%nat)
    by (rewrite length_combine, <- Hlen, Nat.min_id; exact Hi).
  rewrite (nth_indep _ 0 ((fun p => fst (f (fst p) (snd p))) (0, 0)))
    by now rewrite length_map.
  rewrite (nth_indep (map (fun p => snd (f (fst p) (snd p))) _) 0
             ((fun p => snd (f (fst p) (snd p))) (0, 0)))
    by now rewrite length_map.
  rewrite (map_nth (fun p => fst (f (fst p) (snd p)))).
  rewrite (map_nth (fun p => snd (f (fst p) (snd p)))).
  rewrite combine_nth by exact Hlen. cbn [fst snd].
  now destruct (f (nth i xs 0) (nth i ys 0)).
Qed.

Lemma scale_nth (a : ndarray) (c : R) (i : nat) :
  (i < List.length a)%nat -> nth i (Np.scale a c) 0 = nth i a 0 * c.
Proof.
  intros Hi. unfold Np.scale.
  rewrite (nth_indep _ 0 ((fun v => v * c) 0)) by now rewrite length_map.
  apply (map_nth (fun v => v * c)).
Qed.

(** C6. [plot_ppi_map] takes the sweep coordinates [x], [y] in kilometres:
    vertex [i] of the mesh it draws is the map position of the projection of
    [(1000 * x_i, 1000 * y_i)].  [plot_line_xy] projects its arrays as they
    are: vertex [i] of the line through [x], [y] is the map position of the
    projection of [(x_i, y_i)], so that the line through [1000 x], [1000 y]
    passes through the vertices of the mesh, and the line through [x], [y]
    misses vertex [i] wherever the way from Cartesian coordinates to the map
    is one to one and [(x_i, y_i)] is not the origin. *)
Theorem ppi_map_scales_line_xy_does_not (field : string) (o : PpiMapArgs)
    (w w' : World) (style : string) :
  plot_ppi_map field o w = (Ok tt, w') ->
  exists (x y xd yd : ndarray) (bm : Basemap) (pm : Mesh) (data : marray)
         (lo hi : R),
    let to_map := fun geo : ndarray * ndarray =>
                    pointwise (basemap_transform bm) (fst geo) (snd geo) in
    let p := proj (self w') in
    let via := fun a b : R =>
                 basemap_transform bm (fst (pyproj_transform p true a b))
                                      (snd (pyproj_transform p true a b)) in
    get_x_y (radar (base (self w))) (shift (base (self w))) field (sweep o)
      = Ok (x, y) /\
    basemap (self w') = Some bm /\
    In (Pcolormesh bm pm xd yd data lo hi (cmap o)) (drawn w') /\
    (xd, yd) =
      to_map (cartesian_to_geographic p (Np.scale x 1000) (Np.scale y 1000)) /\
    plot_line_xy (Np.scale x 1000) (Np.scale y 1000) style w' =
      draw (Line (cur_ax w') xd yd style) w' /\
    plot_line_xy x y style w' =
      draw (Line (cur_ax w') (fst (to_map (cartesian_to_geographic p x y)))
              (snd (to_map (cartesian_to_geographic p x y))) style) w' /\
    List.length x = List.length y /\
    List.length xd = List.length x /\ List.length yd = List.length x /\
    (forall i : nat, (i < List.length x)%nat ->
       (nth i xd 0, nth i yd 0) = via (nth i x 0 * 1000) (nth i y 0 * 1000)) /\
    plot_line_xy (map (fun v => v * 1000) x) (map (fun v => v * 1000) y) style w' =
      draw (Line (cur_ax w') xd yd style) w' /\
    exists xl yl : ndarray,
      plot_line_xy x y style w' = draw (Line (cur_ax w') xl yl style) w' /\
      List.length xl = List.length x /\ List.length yl = List.length x /\
      (forall i : nat, (i < List.length x)%nat ->
         (nth i xl 0, nth i yl 0) = via (nth i x 0) (nth i y 0)) /\
      (forall i : nat, (i < List.length x)%nat ->
         (forall a b a' b' : R, via a b = via a' b' -> a = a' /\ b = b') ->
         nth i x 0 <> 0 \/ nth i y 0 <> 0 ->
         (nth i xd 0, nth i yd 0) <> (nth i xl 0, nth i yl 0)).
Proof.
  intros H. apply plot_ppi_map_ok in H.
  destruct H as (lo & hi & data & x & y & lon & lat & a & b & c & e & xd & yd & H).
  cbv zeta in H.
  destruct H as (_ & _ & Hxy & Hll & _ & Hxd & Hself & Hdrawn & _).
  apply on_arrays_ok in Hll. destruct Hll as [Hlen Hll].
  apply on_arrays_ok in Hxd. destruct Hxd as [_ Hxd].
  assert (Hlen' : List.length x = List.length y).
  { unfold Np.scale in Hlen. now rewrite !length_map in Hlen. }
  assert (Hgeo : List.length lon = List.length lat).
  { pose proof (pointwise_lengths (pyproj_transform (proj (self w)) true)
                  (Np.scale x 1000) (Np.scale y 1000)) as Hpl.
    now rewrite <- Hll in Hpl. }
  assert (Hlon : List.length lon = List.length x).
  { pose proof (@pointwise_length_fst (pyproj_transform (proj (self w)) true)
                  (Np.scale x 1000) (Np.scale y 1000) Hlen) as Hpl.
    rewrite <- Hll in Hpl. cbn [fst] in Hpl. rewrite Hpl.
    unfold Np.scale. apply length_map. }
  eexists x, y, xd, yd, _, _, _, lo, hi. cbv zeta.
  assert (Hbm : basemap (self w') = Some (mkBasemap (next_id w) a c b e "lcc" 1000
                  (resolution o) match ax o with None => cur_ax w | Some a0 => a0 end
                  (fst (loc (base (self w)))) (snd (loc (base (self w)))))).
  { now rewrite Hself. }
  set (bm := mkBasemap (next_id w) a c b e "lcc" 1000
                  (resolution o) match ax o with None => cur_ax w | Some a0 => a0 end
                  (fst (loc (base (self w)))) (snd (loc (base (self w))))) in *.
  assert (Hp : proj (self w') = proj (self w)) by now rewrite Hself.
  assert (Hscaled : plot_line_xy (Np.scale x 1000) (Np.scale y 1000) style w' =
                    draw (Line (cur_ax w') xd yd style) w').
  { rewrite (plot_line_xy_run _ _ style w' Hlen), Hp, <- Hll. cbn [fst snd].
    rewrite (plot_line_geo_run _ _ _ _ Hbm Hgeo). now rewrite <- Hxd. }
  assert (Hplain : plot_line_xy x y style w' =
            draw (Line (cur_ax w')
                    (fst (pointwise (basemap_transform bm)
                            (fst (pointwise (pyproj_transform (proj (self w)) true) x y))
                            (snd (pointwise (pyproj_transform (proj (self w)) true) x y))))
                    (snd (pointwise (basemap_transform bm)
                            (fst (pointwise (pyproj_transform (proj (self w)) true) x y))
                            (snd (pointwise (pyproj_transform (proj (self w)) true) x y))))
                    style) w').
  { rewrite (plot_line_xy_run _ _ style w' Hlen'), Hp.
    apply (plot_line_geo_run _ _ _ _ Hbm). apply pointwise_lengths. }
  assert (Hxdn : List.length xd = List.length x).
  { pose proof (@pointwise_length_fst (basemap_transform bm) lon lat Hgeo) as Hpl.
    rewrite <- Hxd in Hpl. cbn [fst] in Hpl. congruence. }
  assert (Hydn : List.length yd = List.length x).
  { pose proof (pointwise_lengths (basemap_transform bm) lon lat) as Hpl.
    rewrite <- Hxd in Hpl. cbn [fst snd] in Hpl. congruence. }
  assert (Hmesh : forall i : nat, (i < List.length x)%nat ->
            (nth i xd 0, nth i yd 0) =
            basemap_transform bm
              (fst (pyproj_transform (proj (self w)) true
                      (nth i x 0 * 1000) (nth i y 0 * 1000)))
              (snd (pyproj_transform (proj (self w)) true
                      (nth i x 0 * 1000) (nth i y 0 * 1000)))).
  { intros i Hi.
    pose proof (@pointwise_nth (basemap_transform bm) lon lat i Hgeo) as H1.
    rewrite <- Hxd in H1. cbn [fst snd] in H1. rewrite H1 by lia.
    pose proof (@pointwise_nth (pyproj_transform (proj (self w)) true)
                  (Np.scale x 1000) (Np.scale y 1000) i Hlen) as H2.
    rewrite <- Hll in H2. cbn [fst snd] in H2.
    rewrite !scale_nth in H2 by lia.
    rewrite <- H2; [reflexivity |]. unfold Np.scale. rewrite length_map. exact Hi. }
  set (g := pointwise (pyproj_transform (proj (self w)) true) x y) in *.
  set (m := pointwise (basemap_transform bm) (fst g) (snd g)) in *.
  assert (Hg : List.length (fst g) = List.length (snd g)) by apply pointwise_lengths.
  assert (Hg1 : List.length (fst g) = List.length x)
    by (unfold g; now apply pointwise_length_fst).
  assert (Hline : forall i : nat, (i < List.length x)%nat ->
            (nth i (fst m) 0, nth i (snd m) 0) =
            basemap_transform bm
              (fst (pyproj_transform (proj (self w)) true (nth i x 0) (nth i y 0)))
              (snd (pyproj_transform (proj (self w)) true (nth i x 0) (nth i y 0)))).
  { intros i Hi. unfold m. rewrite pointwise_nth by (try assumption; lia).
    pose proof (@pointwise_nth (pyproj_transform (proj (self w)) true) x y i Hlen')
      as H2.
    fold g in H2. rewrite <- H2 by exact Hi. reflexivity. }
  split; [exact Hxy |]. split; [exact Hbm |].
  split; [rewrite Hdrawn; apply in_or_app; right; cbn [app In];
          do 4 right; left; reflexivity |].
  rewrite Hp. unfold cartesian_to_geographic. rewrite <- Hll. cbn [fst snd].
  split; [exact Hxd |]. split; [exact Hscaled |]. split; [exact Hplain |].
  split; [exact Hlen' |]. split; [exact Hxdn |]. split; [exact Hydn |].
  split; [exact Hmesh |]. split; [exact Hscaled |].
  exists (fst m), (snd m). split; [exact Hplain |].
  split; [unfold m; rewrite pointwise_length_fst; assumption |].
  split; [unfold m; rewrite <- pointwise_lengths, pointwise_length_fst; assumption |].
  split; [exact Hline |].
  intros i Hi Hinj Hne Heq.
  rewrite (Hmesh i Hi), (Hline i Hi) in Heq.
  apply Hinj in Heq. destruct Heq as [Hx Hy]. destruct Hne as [Hne | Hne]; lra.
Qed.

Lemma In_IZR_arange (start stop : Z) (v : R) :
  In v (map IZR (Np.arange start stop 1)) <->
  exists k : Z, v = IZR k /\ (start <= k < stop)%Z.
Proof.
  rewrite in_map_iff. split.
  - intros (k & <- & Hk). exists k. split; [reflexivity | now apply arange_In].
  - intros (k & -> & Hk). exists k. split; [reflexivity | now apply arange_In].
Qed.

(** C9, as the code has it.  A successful [plot_ppi_map] draws the parallels
    and the meridians of the arrays it was given; for an array left unset
    it draws the default one.  The default latitudes are the 16 integers of
    [30 <= k < 46], from 30 to 45; the default longitudes are the 35
    integers of [-110 <= k < -75], from -110 to -76: [np.arange] leaves its
    stop value out. *)
Theorem default_graticule_lines (field : string) (o : PpiMapArgs) (w w' : World) :
  plot_ppi_map field o w = (Ok tt, w') ->
  (exists bm : Basemap,
     basemap (self w') = Some bm /\
     In (Parallels bm
           match lat_lines o with None => default_lat_lines | Some l => l end
           [true; false; false; false]) (drawn w') /\
     In (Meridians bm
           match lon_lines o with None => default_lon_lines | Some l => l end
           [false; false; false; true]) (drawn w')) /\
  (forall v : R,
     In v default_lat_lines <-> exists k : Z, v = IZR k /\ (30 <= k < 46)%Z) /\
  (forall v : R,
     In v default_lon_lines <-> exists k : Z, v = IZR k /\ (-110 <= k < -75)%Z) /\
  List.length default_lat_lines = 16%nat /\
  hd 0 default_lat_lines = 30 /\ last default_lat_lines 0 = 45 /\
  List.length default_lon_lines = 35%nat /\
  hd 0 default_lon_lines = -110 /\ last default_lon_lines 0 = -76.
Proof.
  intros H. apply plot_ppi_map_ok in H.
  destruct H as (lo & hi & data & x & y & lon & lat & a & b & c & e & xd & yd & H).
  cbv zeta in H.
  destruct H as (_ & _ & _ & _ & _ & _ & Hself & Hdrawn & _).
  split.
  - eexists. rewrite Hself, Hdrawn. cbn [basemap].
    split; [reflexivity |].
    split; apply in_or_app; right; cbn [app In]; auto.
  - split; [intros v; apply In_IZR_arange |].
    split; [intros v; apply In_IZR_arange |].
    repeat split.
Qed.

End PpiMap.

(** C9, as stated, fails: 46 and -75 are not among the default lines. *)
Lemma default_graticule_stops_short :
  ~ In 46 default_lat_lines /\ ~ In (-75) default_lon_lines.
Proof.
  split; intros Hin; apply In_IZR_arange in Hin;
    destruct Hin as (k & Hk & Hr); apply eq_IZR in Hk; lia.
Qed.

(** ** The theorems at work on the small backend *)

Lemma demo_first_plot :
  plot_ppi_map "reflectivity" ppi_map_defaults Demo.w0 = (Ok tt, Demo.w1).
Proof. unfold Demo.w1. apply surjective_pairing. Qed.

Lemma demo_second_plot :
  plot_ppi_map "velocity" ppi_map_defaults Demo.w1 = (Ok tt, Demo.w2).
Proof. unfold Demo.w2. apply surjective_pairing. Qed.

Lemma plot_line_xy_refines_spec_witness :
  List.length [0; 1000] = List.length [0; 0] /\
  plot_line_xy [0; 1000] [0; 0] "r-" Demo.w1 =
  plot_line_xy_spec [0; 1000] [0; 0] "r-" Demo.w1.
Proof.
  split; [reflexivity |].
  apply (proj1 (@plot_line_xy_refines_spec Demo.backend [0; 1000] [0; 0] "r-"%string
                  Demo.w1 eq_refl)).
Defined.

Lemma plot_point_label_ignores_offset_witness :
  basemap (self Demo.w_map) = Some Demo.bm /\
  plot_point (-88) 41 "ro" (Some "KLOT"%string) [1; 2] Demo.w_map =
  plot_point (-88) 41 "ro" (Some "KLOT"%string) default_label_offset Demo.w_map.
Proof.
  split; [reflexivity |].
  apply (proj2 (@plot_point_label_ignores_offset Demo.backend (-88) 41 "ro"%string
                  "KLOT"%string (5 / 100) (5 / 100) Demo.w_map Demo.bm eq_refl)).
Defined.

Lemma plot_ppi_map_extent_witness :
  plot_ppi_map "reflectivity" ppi_map_defaults Demo.w0 = (Ok tt, Demo.w1) /\
  exists (lon lat : ndarray) (bm : Basemap),
    basemap (self Demo.w1) = Some bm /\
    is_min_of lon (llcrnrlon bm) /\ is_max_of lon (urcrnrlon bm) /\
    is_min_of lat (llcrnrlat bm) /\ is_max_of lat (urcrnrlat bm).
Proof.
  split; [exact demo_first_plot |].
  destruct (@plot_ppi_map_extent Demo.backend "reflectivity" ppi_map_defaults
              Demo.w0 Demo.w1 demo_first_plot)
    as (x & y & lon & lat & bm & _ & _ & Hbm & Hext).
  exists lon, lat, bm. split; [exact Hbm | exact Hext].
Defined.

Lemma plot_ppi_map_twice_witness :
  plot_ppi_map "reflectivity" ppi_map_defaults Demo.w0 = (Ok tt, Demo.w1) /\
  plot_ppi_map "velocity" ppi_map_defaults Demo.w1 = (Ok tt, Demo.w2) /\
  exists pm1 pm2 : Mesh,
    plots (base (self Demo.w2)) = [pm1; pm2] /\
    plot_vars (base (self Demo.w2)) = ["reflectivity"%string; "velocity"%string].
Proof.
  split; [exact demo_first_plot |]. split; [exact demo_second_plot |].
  destruct (@plot_ppi_map_twice Demo.backend "reflectivity" "velocity"
              ppi_map_defaults ppi_map_defaults Demo.w0 Demo.w1 Demo.w2
              demo_first_plot demo_second_plot)
    as (pm1 & pm2 & bm1 & bm2 & d1 & d2 & Hp & Hv & _).
  exists pm1, pm2. split; [exact Hp | exact Hv].
Defined.

Lemma ppi_map_scales_line_xy_does_not_witness :
  plot_ppi_map "reflectivity" ppi_map_defaults Demo.w0 = (Ok tt, Demo.w1) /\
  exists (xd yd xl yl : ndarray) (bm : Basemap) (pm : Mesh) (data : marray)
         (lo hi : R),
    In (Pcolormesh bm pm xd yd data lo hi "jet") (drawn Demo.w1) /\
    plot_line_xy (map (fun v => v * 1000) Demo.sweep_x)
                 (map (fun v => v * 1000) Demo.sweep_y) "r-" Demo.w1 =
      draw (Line (cur_ax Demo.w1) xd yd "r-") Demo.w1 /\
    plot_line_xy Demo.sweep_x Demo.sweep_y "r-" Demo.w1 =
      draw (Line (cur_ax Demo.w1) xl yl "r-") Demo.w1 /\
    (nth 1 xd 0, nth 1 yd 0) <> (nth 1 xl 0, nth 1 yl 0).
Proof.
  split; [exact demo_first_plot |].
  destruct (@ppi_map_scales_line_xy_does_not Demo.backend "reflectivity"
              ppi_map_defaults Demo.w0 Demo.w1 "r-"%string demo_first_plot)
    as (x & y & xd & yd & bm & pm & data & lo & hi & Hxy & _ & Hin & _ & _ & _ & _
        & _ & _ & _ & Hscaled & xl & yl & Hplain & _ & _ & _ & Hdiff).
  injection Hxy as <- <-.
  exists xd, yd, xl, yl, bm, pm, data, lo, hi.
  split; [exact Hin |]. split; [exact Hscaled |]. split; [exact Hplain |].
  apply Hdiff.
  - cbn. lia.
  - intros a b a' b' Heq. cbn in Heq. injection Heq as H1 H2. split; lra.
  - left. cbn. lra.
Defined.

Lemma default_graticule_lines_witness :
  plot_ppi_map "reflectivity" ppi_map_defaults Demo.w0 = (Ok tt, Demo.w1) /\
  exists bm : Basemap,
    In (Parallels bm default_lat_lines [true; false; false; false]) (drawn Demo.w1).
Proof.
  split; [exact demo_first_plot |].
  destruct (@default_graticule_lines Demo.backend "reflectivity" ppi_map_defaults
              Demo.w0 Demo.w1 demo_first_plot)
    as ((bm & _ & Hpar & _) & _).
  exists bm. exact Hpar.
Defined.

(** ** Runs of [plot_ppi_map] from their preconditions *)

Section Forward.

Context {B : Backend}.

Lemma bind_run_ok {A C : Type} (m : M A) (f : A -> M C) (w w1 : World) (a : A) :
  m w = (Ok a, w1) -> bind m f w = f a w1.
Proof. intros H. unfold bind. now rewrite H. Qed.

Lemma bind_run_raise {A C : Type} (m : M A) (f : A -> M C) (w w1 : World) (e : exn) :
  m w = (Raise e, w1) -> bind m f w = (Raise e, w1).
Proof. intros H. unfold bind. now rewrite H. Qed.

Lemma bind_raise {A C : Type} (m : M A) (f : A -> M C) (w w' : World) (e : exn) :
  bind m f w = (Raise e, w') ->
  m w = (Raise e, w') \/
  exists a w1, m w = (Ok a, w1) /\ f a w1 = (Raise e, w').
Proof.
  unfold bind. destruct (m w) as [[a | e1] w1].
  - intros H. right. eauto.
  - intros [= -> ->]. now left.
Qed.

Lemma lift_raise {A : Type} (r : result A) (w w' : World) (e : exn) :
  lift r w = (Raise e, w') -> r = Raise e /\ w' = w.
Proof. unfold lift. now intros [= -> ->]. Qed.





(** A computation that returns in every state. *)
Lemma bind_returns {A C : Type} (m : M A) (f : A -> M C) :
  (forall w, exists a w', m w = (Ok a, w')) ->
  (forall a w, exists c w', f a w = (Ok c, w')) ->
  forall w, exists c w', bind m f w = (Ok c, w').
Proof.
  intros Hm Hf w. destruct (Hm w) as (a & w1 & H1).
  destruct (Hf a w1) as (c & w2 & H2).
  exists c, w2. unfold bind. now rewrite H1.
Qed.

(** From the title on, [plot_ppi_map] cannot raise. *)
Lemma ppi_map_tail_returns (field : string) (o : PpiMapArgs) (pm : Mesh)
    (ax1 : Axis) (fig1 : Figure) (w : World) :
  exists w' : World,
    ((if title_flag o then _set_title field (sweep o) (title o) ax1 else ret tt) ;;
     setattr (append_plots pm) ;;
     setattr (append_plot_vars field) ;;
     if colorbar_flag o
     then plot_colorbar pm (colorbar_label o) field fig1
     else ret tt) w = (Ok tt, w').
Proof.
  assert (Hdraw : forall a w0, exists (c : unit) w', draw a w0 = (Ok c, w'))
    by (intros; unfold draw; eauto).
  assert (Hset : forall g w0, exists (c : unit) w', setattr g w0 = (Ok c, w'))
    by (intros; unfold setattr; eauto).
  assert (Hget : forall (A : Type) (g : RadarMapDisplay -> A) w0,
             exists c w', getattr g w0 = (Ok c, w'))
    by (intros; unfold getattr; eauto).
  assert (Hret : forall w0, exists (c : unit) w', ret tt w0 = (Ok c, w'))
    by (intros; unfold ret; eauto).
  assert (Hfresh : forall w0, exists c w', fresh w0 = (Ok c, w'))
    by (intros; unfold fresh; eauto).
  assert (H : exists (c : unit) w', 
    ((if title_flag o then _set_title field (sweep o) (title o) ax1 else ret tt) ;;
     setattr (append_plots pm) ;;
     setattr (append_plot_vars field) ;;
     if colorbar_flag o
     then plot_colorbar pm (colorbar_label o) field fig1
     else ret tt) w = (Ok c, w')).
  { apply bind_returns.
    - destruct (title_flag o); [| exact Hret].
      unfold _set_title. apply bind_returns; [apply Hget | intros; apply Hdraw].
    - intros _ w0. apply bind_returns; [apply Hset |].
      intros _ w1. apply bind_returns; [apply Hset |].
      intros _ w2. destruct (colorbar_flag o); [| apply Hret].
      unfold plot_colorbar. apply bind_returns; [apply Hget |].
      intros r w3. apply bind_returns; [apply Hfresh |].
      intros id w4. apply bind_returns; [apply Hdraw | intros; apply Hset]. }
  destruct H as ([] & w' & H). now exists w'.
Qed.


(** X6. A sweep without gates, with the region taken from the data:
    [plot_ppi_map] raises [ValueError] (the maximum of an empty array) before
    it has changed or drawn anything. *)
Theorem plot_ppi_map_empty_sweep (field : string) (o : PpiMapArgs) (w : World)
    (lo hi : R) (data : marray) :
  parse_vmin_vmax (radar (base (self w))) field (vmin o) (vmax o) = Ok (lo, hi) ->
  get_data (radar (base (self w))) field (sweep o) (mask_tuple o) = Ok data ->
  get_x_y (radar (base (self w))) (shift (base (self w))) field (sweep o)
    = Ok ([], []) ->
  auto_range o = true ->
  plot_ppi_map field o w = (Raise ValueError, w).
Proof.
  intros Hv Hd Hxy Hauto. unfold plot_ppi_map.
  erewrite bind_run_ok by apply parse_ax_fig_run. cbv beta iota zeta.
  erewrite bind_run_ok
    by (unfold _parse_vmin_vmax, bind, getattr, lift; rewrite Hv; reflexivity).
  cbv beta iota zeta.
  erewrite bind_run_ok
    by (unfold _get_data, bind, getattr, lift; rewrite Hd; reflexivity).
  erewrite bind_run_ok
    by (unfold _get_x_y, bind, getattr, lift; rewrite Hxy; reflexivity).
  cbv beta iota zeta.
  erewrite bind_run_ok by reflexivity. cbv beta iota zeta.
  erewrite bind_run_ok
    by (unfold call_proj, lift, on_arrays, pointwise, Np.scale;
        cbn [map combine List.length Nat.eqb]; reflexivity).
  cbv beta iota zeta.
  erewrite bind_run_raise; [reflexivity |].
  rewrite Hauto. reflexivity.
Qed.

End Forward.

(** ** Every outcome of the methods *)

Section Outcomes.

Context {B : Backend}.

Lemma map_region_raise (auto : bool) (lon lat : ndarray) (a b c d : R)
    (w w' : World) (e : exn) :
  map_region auto lon lat a b c d w = (Raise e, w') -> w' = w.
Proof.
  unfold map_region, bind, lift, ret. destruct auto; [| discriminate].
  destruct (Np.amax lat); [| now intros [= _ ->]].
  destruct (Np.amax lon); [| now intros [= _ ->]].
  destruct (Np.amin lat); [| now intros [= _ ->]].
  destruct (Np.amin lon); [discriminate | now intros [= _ ->]].
Qed.

(** What [plot_ppi_map] has done when it raises: the base class attributes
    and the projection are untouched; the basemap is the former one, or the
    one of this call. *)
Lemma plot_ppi_map_raise (field : string) (o : PpiMapArgs) (w w' : World) (e : exn) :
  plot_ppi_map field o w = (Raise e, w') ->
  base (self w') = base (self w) /\
  proj (self w') = proj (self w) /\
  (exists d : list Artist, drawn w' = drawn w ++ d) /\
  (basemap (self w') = basemap (self w) \/
   exists bm : Basemap,
     basemap (self w') = Some bm /\ projection bm = "lcc"%string /\
     bm_lat_0 bm = fst (loc (base (self w))) /\
     bm_lon_0 bm = snd (loc (base (self w)))).
Proof.
  intros H. unfold plot_ppi_map in H.
  assert (Hsame : base (self w) = base (self w) /\ proj (self w) = proj (self w) /\
            (exists d : list Artist, drawn w = drawn w ++ d) /\
            (basemap (self w) = basemap (self w) \/
             exists bm : Basemap,
               basemap (self w) = Some bm /\ projection bm = "lcc"%string /\
               bm_lat_0 bm = fst (loc (base (self w))) /\
               bm_lon_0 bm = snd (loc (base (self w))))).
  { split; [reflexivity |]. split; [reflexivity |]. split; [| now left].
    exists []. now rewrite app_nil_r. }
  apply bind_raise in H. destruct H as [H | ([ax1 fig1] & w1 & H1 & H)].
  { rewrite parse_ax_fig_run in H. discriminate H. }
  rewrite parse_ax_fig_run in H1. injection H1 as <- <- <-.
  apply bind_raise in H. destruct H as [H | ([vmin1 vmax1] & w1 & H1 & H)].
  { change (_parse_vmin_vmax field (vmin o) (vmax o) w)
      with (parse_vmin_vmax (radar (base (self w))) field (vmin o) (vmax o), w) in H.
    injection H as _ <-. exact Hsame. }
  change (_parse_vmin_vmax field (vmin o) (vmax o) w)
    with (parse_vmin_vmax (radar (base (self w))) field (vmin o) (vmax o), w) in H1.
  injection H1 as _ <-.
  apply bind_raise in H. destruct H as [H | (data & w1 & H1 & H)].
  { change (_get_data field (sweep o) (mask_tuple o) w)
      with (get_data (radar (base (self w))) field (sweep o) (mask_tuple o), w) in H.
    injection H as _ <-. exact Hsame. }
  change (_get_data field (sweep o) (mask_tuple o) w)
    with (get_data (radar (base (self w))) field (sweep o) (mask_tuple o), w) in H1.
  injection H1 as _ <-.
  apply bind_raise in H. destruct H as [H | ([x y] & w1 & H1 & H)].
  { change (_get_x_y field (sweep o) w)
      with (get_x_y (radar (base (self w))) (shift (base (self w))) field (sweep o), w)
      in H.
    injection H as _ <-. exact Hsame. }
  change (_get_x_y field (sweep o) w)
    with (get_x_y (radar (base (self w))) (shift (base (self w))) field (sweep o), w)
    in H1.
  injection H1 as _ <-.
  apply bind_raise in H. destruct H as [H | (p & w1 & H1 & H)];
    [discriminate H |]. injection H1 as <- <-.
  apply bind_raise in H. destruct H as [H | ([lon lat] & w1 & H1 & H)].
  { apply lift_raise in H. destruct H as [_ ->]. exact Hsame. }
  apply lift_ok in H1. destruct H1 as [Hll ->].
  apply bind_raise in H.
  destruct H as [H | ([[[mnlo mxlo] mnla] mxla] & w1 & H1 & H)].
  { apply map_region_raise in H. subst w'. exact Hsame. }
  apply map_region_ok in H1. destruct H1 as [-> _].
  apply bind_raise in H. destruct H as [H | (l & w1 & H1 & H)];
    [discriminate H |]. injection H1 as <- <-.
  apply bind_raise in H. destruct H as [H | (bm & w1 & H1 & H)].
  { unfold Basemap_new in H.
    apply bind_raise in H. destruct H as [H | (id & w2 & H2 & H)];
      [discriminate H |]. injection H2 as <- <-.
    apply bind_raise in H. destruct H as [H | ([] & w2 & H2 & H)];
      [| discriminate H].
    apply lift_raise in H. destruct H as [_ ->]. exact Hsame. }
  unfold Basemap_new in H1.
  apply bind_ok in H1. destruct H1 as (id & w2 & H2 & H1).
  injection H2 as <- <-.
  apply bind_ok in H1. destruct H1 as ([] & w2 & H2 & H1).
  apply lift_ok in H2. destruct H2 as [_ ->].
  injection H1 as <- <-.
  apply bind_raise in H. destruct H as [H | ([] & w1 & H1 & H)];
    [discriminate H |]. injection H1 as <-.
  apply bind_raise in H. destruct H as [H | ([] & w1 & H1 & H)];
    [discriminate H |]. injection H1 as <-.
  apply bind_raise in H. destruct H as [H | ([] & w1 & H1 & H)];
    [discriminate H |]. injection H1 as <-.
  apply bind_raise in H. destruct H as [H | ([] & w1 & H1 & H)];
    [discriminate H |]. injection H1 as <-.
  apply bind_raise in H. destruct H as [H | ([] & w1 & H1 & H)];
    [discriminate H |]. injection H1 as <-.
  cbn [self next_id drawn cur_ax cur_fig] in H.
  assert (Hnew : forall (d0 : list Artist) (n' : nat),
    let w'' := mkWorld
                 (set_basemap
                    (mkBasemap (next_id w) mnlo mnla mxlo mxla "lcc" 1000
                       (resolution o)
                       match ax o with None => cur_ax w | Some a => a end
                       (fst (loc (base (self w)))) (snd (loc (base (self w)))))
                    (self w))
                 (cur_ax w) (cur_fig w) n' (drawn w ++ d0) in
    base (self w'') = base (self w) /\ proj (self w'') = proj (self w) /\
    (exists d : list Artist, drawn w'' = drawn w ++ d) /\
    (basemap (self w'') = basemap (self w) \/
     exists bm : Basemap,
       basemap (self w'') = Some bm /\ projection bm = "lcc"%string /\
       bm_lat_0 bm = fst (loc (base (self w))) /\
       bm_lon_0 bm = snd (loc (base (self w))))).
  { intros d0 n' w''. subst w''. cbn [self drawn set_basemap base basemap proj].
    split; [reflexivity |]. split; [reflexivity |]. split; [now exists d0 |].
    right. eexists. split; [reflexivity |]. now cbn. }
  rewrite <- !app_assoc in H. cbn [app] in H.
  apply bind_raise in H. destruct H as [H | ([xd yd] & w1 & H1 & H)].
  { apply lift_raise in H. destruct H as [_ ->]. apply Hnew. }
  apply lift_ok in H1. destruct H1 as [_ ->].
  apply bind_raise in H. destruct H as [H | (pm & w1 & H1 & H)];
    [discriminate H |].
  unfold pcolormesh, bind, fresh, draw, ret in H1.
  cbn [self next_id drawn cur_ax cur_fig] in H1. injection H1 as <- <-.
  rewrite <- !app_assoc in H. cbn [app] in H.
  apply bind_raise in H. destruct H as [H | ([] & w1 & H1 & H)].
  { destruct (shapefile o) as [f |]; [| discriminate H].
    unfold readshapefile in H.
    apply bind_raise in H. destruct H as [H | ([] & w2 & H2 & H)];
      [| discriminate H].
    apply lift_raise in H. destruct H as [_ ->]. apply Hnew. }
  cbv beta in H.
  destruct (ppi_map_tail_returns field o (mkMesh (S (next_id w)))
              match ax o with None => cur_ax w | Some a => a end
              match fig o with None => cur_fig w | Some f => f end w1)
    as (w'' & Ht).
  rewrite Ht in H. discriminate H.
Qed.

(** X4. Whether it returns or raises, [plot_ppi_map] keeps [plots] and
    [plot_vars] in step: it appends one entry to both or none to either,
    and removes nothing; what was drawn stays drawn, and the projection and
    the position of the radar are not touched.  When it returns, the entry
    appended to [plot_vars] is the field. *)
Theorem plot_ppi_map_keeps_lists_in_step (field : string) (o : PpiMapArgs)
    (w : World) :
  exists (ps : list Mesh) (vs : list string) (d : list Artist),
    plots (base (self (snd (plot_ppi_map field o w)))) = plots (base (self w)) ++ ps /\
    plot_vars (base (self (snd (plot_ppi_map field o w))))
      = plot_vars (base (self w)) ++ vs /\
    List.length ps = List.length vs /\
    (List.length ps <= 1)%nat /\
    (fst (plot_ppi_map field o w) = Ok tt -> vs = [field]) /\
    drawn (snd (plot_ppi_map field o w)) = drawn w ++ d /\
    proj (self (snd (plot_ppi_map field o w))) = proj (self w) /\
    loc (base (self (snd (plot_ppi_map field o w)))) = loc (base (self w)).
Proof.
  destruct (plot_ppi_map field o w) as [[[] | e] w'] eqn:H; cbn [fst snd].
  - apply plot_ppi_map_ok in H.
    destruct H as (lo & hi & data & x & y & lon & lat & a & b & c & e & xd & yd & H).
    cbv zeta in H. destruct H as (_ & _ & _ & _ & _ & _ & Hself & Hdrawn & _).
    rewrite Hself, Hdrawn. cbn [base plots plot_vars proj loc].
    exists [mkMesh (S (next_id w))], [field]. eexists.
    split; [reflexivity |]. split; [reflexivity |]. split; [reflexivity |].
    split; [cbn; lia |]. split; [reflexivity |]. split; [reflexivity |].
    split; reflexivity.
  - apply plot_ppi_map_raise in H. destruct H as (Hbase & Hproj & [d Hd] & _).
    rewrite Hbase, Hproj, Hd.
    exists [], [], d. rewrite !app_nil_r.
    split; [reflexivity |]. split; [reflexivity |]. split; [reflexivity |].
    split; [cbn; lia |]. split; [discriminate |]. split; [reflexivity |].
    split; reflexivity.
Qed.

(** The overlay methods do not assign to the display. *)
Lemma overlay_frame (c : Call) (w : World) :
  (forall field o, c <> PlotPpiMap field o) ->
  self (snd (call c w)) = self w.
Proof.
  assert (Hgeo : forall lons lats style,
             self (snd (plot_line_geo lons lats style w)) = self w).
  { intros. unfold plot_line_geo, bind, getattr, call_basemap, lift, raise, gca, draw.
    destruct (basemap (self w)) as [bm |]; [| reflexivity].
    destruct (on_arrays (basemap_transform bm) lons lats) as [[xp yp] | e];
      reflexivity. }
  assert (Hxy : forall xs ys style,
             self (snd (plot_line_xy xs ys style w)) = self w).
  { intros. unfold plot_line_xy, call_proj.
    unfold bind at 1 2. unfold getattr at 1. unfold lift.
    destruct (on_arrays (pyproj_transform (proj (self w)) true) xs ys)
      as [[lons lats] | e]; [apply Hgeo | reflexivity]. }
  intros Hc. destruct c as [field o | lon lat symbol label off | | |]; cbn [call].
  - now elim (Hc field o).
  - unfold plot_point, bind, getattr, call_basemap_point, raise, ret, gca, draw, lift.
    destruct (basemap (self w)) as [bm |] eqn:Hbm; [| reflexivity].
    destruct (basemap_transform bm lon lat) as [xp yp] eqn:Exy.
    cbn [self cur_ax cur_fig next_id drawn].
    destruct label as [text |]; [| reflexivity].
    destruct (Np.getitem off 0); [| reflexivity].
    destruct (Np.getitem off 1); [| reflexivity].
    cbn [self cur_ax cur_fig next_id drawn]. rewrite Hbm, Exy. reflexivity.
  - apply Hgeo.
  - apply Hxy.
  - apply Hxy.
Qed.

Lemma display_ok_call (c : Call) (w : World) :
  display_ok (self w) -> display_ok (self (snd (call c w))).
Proof.
  intros Hok.
  destruct c as [field o | | | |];
    try (rewrite overlay_frame; [exact Hok | discriminate]).
  cbn [call]. destruct Hok as (Hlen & Hproj & Hbm).
  destruct (plot_ppi_map field o w) as [[[] | e] w'] eqn:H; cbn [snd].
  - apply plot_ppi_map_ok in H.
    destruct H as (lo & hi & data & x & y & lon & lat & a & b & c & e & xd & yd & H).
    cbv zeta in H. destruct H as (_ & _ & _ & _ & _ & _ & Hself & _).
    rewrite Hself. unfold display_ok. cbn [base plots plot_vars proj loc basemap].
    split; [rewrite !length_app, Hlen; reflexivity |].
    split; [exact Hproj |].
    intros bm [= <-]. cbn [projection bm_lat_0 bm_lon_0]. rewrite Hproj.
    repeat split.
  - apply plot_ppi_map_raise in H. destruct H as (Hbase & Hproj' & _ & Hb).
    unfold display_ok. rewrite Hbase, Hproj'.
    split; [exact Hlen |]. split; [exact Hproj |].
    intros bm Hbm'. destruct Hb as [Hb | (bm' & Hb & Hp & Hlat & Hlon)].
    + apply Hbm. now rewrite <- Hb.
    + rewrite Hb in Hbm'. injection Hbm' as <-. rewrite Hproj.
      cbn [proj_lat_0 proj_lon_0]. auto.
Qed.

(** X5. Consistency of the display is an invariant of the five methods,
    called in any order and with any outcome: the lists [plots] and
    [plot_vars] keep one length, the projection stays the Lambert conformal
    conic one anchored at the radar, and a stored basemap is a Lambert
    conformal conic map with the same origin. *)
Theorem display_ok_run_calls (cs : list Call) (w : World) :
  display_ok (self w) -> display_ok (self (run_calls cs w)).
Proof.
  revert w. induction cs as [| c cs IH]; intros w Hok; cbn [run_calls].
  - exact Hok.
  - apply IH. now apply display_ok_call.
Qed.

(** X1. [plot_point] reads the label offset only when there is a label:
    without one it draws the marker whatever the offset list is; with one
    and an offset of fewer than two components it raises [IndexError], after
    the marker has been drawn and before any text is. *)
Theorem plot_point_offset_only_with_label (lon lat : R) (symbol text : string)
    (label_offset : list R) (w : World) (bm : Basemap) :
  basemap (self w) = Some bm ->
  let marker :=
    Line (cur_ax w)
      [fst (basemap_transform bm lon lat); fst (basemap_transform bm lon lat)]
      [snd (basemap_transform bm lon lat); snd (basemap_transform bm lon lat)]
      symbol in
  plot_point lon lat symbol None label_offset w = draw marker w /\
  ((List.length label_offset < 2)%nat ->
   plot_point lon lat symbol (Some text) label_offset w =
   (Raise IndexError, snd (draw marker w))).
Proof.
  intros Hbm. cbv zeta. split; [now apply plot_point_run |].
  intros Hlen.
  unfold plot_point, bind, getattr, call_basemap_point, gca, draw, lift, ret.
  rewrite Hbm. destruct (basemap_transform bm lon lat) as [xp yp].
  cbn [fst snd self cur_ax cur_fig next_id drawn].
  destruct label_offset as [| a [| b l]]; [reflexivity | reflexivity |].
  cbn in Hlen. lia.
Qed.

(** X2. Before any [plot_ppi_map], [plot_range_ring] raises [TypeError]
    without drawing anything, and so does [plot_line_xy] on arrays of one
    length: the projection of the display is there, the basemap is not. *)
Theorem ring_before_ppi_map_fails (r : Radar) (sh : R * R)
    (cax : Axis) (cfig : Figure) (n : nat) (d : list Artist)
    (radar_range : R) (xs ys : ndarray) (style : string) :
  let w := mkWorld (__init__ r sh) cax cfig n d in
  plot_range_ring radar_range style w = (Raise TypeError, w) /\
  (List.length xs = List.length ys ->
   plot_line_xy xs ys style w = (Raise TypeError, w)).
Proof.
  cbv zeta.
  assert (H : forall xs0 ys0 : ndarray,
             List.length xs0 = List.length ys0 ->
             plot_line_xy xs0 ys0 style (mkWorld (__init__ r sh) cax cfig n d) =
             (Raise TypeError, mkWorld (__init__ r sh) cax cfig n d)).
  { intros xs0 ys0 Hlen. rewrite (plot_line_xy_run _ _ _ _ Hlen). reflexivity. }
  split; [| apply H].
  unfold plot_range_ring. cbv zeta. apply H.
  unfold Np.scaled_sin, Np.scaled_cos. now rewrite !length_map.
Qed.

End Outcomes.

(** ** Arguments that are not used, the mask and the ring *)

Section More.

Context {B : Backend}.

(** X11. With [auto_range], the four corner arguments are not used: the
    call has the same outcome whatever they are. *)
Theorem auto_range_ignores_corners (field : string) (o : PpiMapArgs)
    (a b c d : R) (w : World) :
  auto_range o = true ->
  plot_ppi_map field (with_corners o a b c d) w = plot_ppi_map field o w.
Proof.
  intros Hauto. unfold plot_ppi_map, with_corners.
  cbn [sweep mask_tuple vmin vmax cmap mask_outside title title_flag colorbar_flag
       colorbar_label ax fig lat_lines lon_lines auto_range min_lon max_lon min_lat
       max_lat resolution shapefile].
  rewrite Hauto. reflexivity.
Qed.

(** X12. The title is not used when [title_flag] is off, and the colorbar
    label is not used when [colorbar_flag] is off. *)
Theorem flags_off_ignore_texts (field : string) (o : PpiMapArgs)
    (t l : option string) (w : World) :
  (title_flag o = false ->
   plot_ppi_map field (with_title o t) w = plot_ppi_map field o w) /\
  (colorbar_flag o = false ->
   plot_ppi_map field (with_colorbar_label o l) w = plot_ppi_map field o w).
Proof.
  split; intros Hflag; unfold plot_ppi_map, with_title, with_colorbar_label;
    cbn [sweep mask_tuple vmin vmax cmap mask_outside title title_flag colorbar_flag
         colorbar_label ax fig lat_lines lon_lines auto_range min_lon max_lon min_lat
         max_lat resolution shapefile];
    rewrite Hflag; reflexivity.
Qed.

(** X3. When [plot_range_ring] returns, the display has a basemap, and
    what the call has done is draw one polyline of 360 vertices on the
    current axes; nothing else has changed. *)
Theorem plot_range_ring_on_map (radar_range : R) (style : string) (w w' : World) :
  plot_range_ring radar_range style w = (Ok tt, w') ->
  exists (bm : Basemap) (xp yp : ndarray),
    basemap (self w) = Some bm /\
    w' = snd (draw (Line (cur_ax w) xp yp style) w) /\
    List.length xp = 360%nat /\ List.length yp = 360%nat.
Proof.
  unfold plot_range_ring. cbv zeta.
  set (xs := Np.scaled_sin radar_range (Np.linspace 0 (2 * PI) 360)).
  set (ys := Np.scaled_cos radar_range (Np.linspace 0 (2 * PI) 360)).
  assert (Hx : List.length xs = 360%nat)
    by (unfold xs, Np.scaled_sin; now rewrite length_map, linspace_length).
  assert (Hy : List.length ys = 360%nat)
    by (unfold ys, Np.scaled_cos; now rewrite length_map, linspace_length).
  assert (Hxy : List.length xs = List.length ys) by congruence.
  rewrite (plot_line_xy_run _ _ style w Hxy).
  set (g := pointwise (pyproj_transform (proj (self w)) true) xs ys).
  assert (Hg : List.length (fst g) = List.length (snd g))
    by apply pointwise_lengths.
  assert (Hg1 : List.length (fst g) = 360%nat)
    by (unfold g; rewrite pointwise_length_fst; assumption).
  destruct (basemap (self w)) as [bm |] eqn:Hbm.
  - rewrite (plot_line_geo_run _ _ style w Hbm Hg).
    set (m := pointwise (basemap_transform bm) (fst g) (snd g)).
    intros H. exists bm, (fst m), (snd m).
    assert (Hm1 : List.length (fst m) = 360%nat)
      by (unfold m; rewrite pointwise_length_fst; assumption).
    split; [reflexivity |].
    split; [clearbody m g xs ys; unfold draw in H |- *; injection H as <-;
            reflexivity |].
    split; [exact Hm1 |].
    unfold m. rewrite <- pointwise_lengths. exact Hm1.
  - unfold plot_line_geo, bind, getattr, call_basemap, raise.
    rewrite Hbm. discriminate.
Qed.

(** What [np.ma.masked_outside] lets through. *)
Lemma masked_outside_In (x : marray) (v1 v2 v : R) :
  In (Some v) (Np.masked_outside x v1 v2) <->
  In (Some v) x /\ Rmin v1 v2 <= v <= Rmax v1 v2.
Proof.
  unfold Np.masked_outside.
  assert (E : (if Np.Rltb v2 v1 then (v2, v1) else (v1, v2)) = (Rmin v1 v2, Rmax v1 v2)).
  { unfold Np.Rltb, Rmin, Rmax.
    destruct (Rlt_dec v2 v1), (Rle_dec v1 v2); try lra; reflexivity. }
  rewrite E. rewrite in_map_iff. split.
  - intros ([u |] & Hu & Hin); [| discriminate].
    unfold Np.Rltb in Hu.
    destruct (Rlt_dec u (Rmin v1 v2)), (Rlt_dec (Rmax v1 v2) u);
      cbn in Hu; try discriminate.
    injection Hu as <-. split; [exact Hin | lra].
  - intros (Hin & Hb). exists (Some v). split; [| exact Hin].
    unfold Np.Rltb.
    destruct (Rlt_dec v (Rmin v1 v2)), (Rlt_dec (Rmax v1 v2) v); try lra.
    reflexivity.
Qed.

(** X8. The mesh a successful [plot_ppi_map] draws holds one value per
    value of the field.  With [mask_outside], its unmasked values are those
    of the field that lie between the two colour limits (in either order);
    without, the data are drawn as the base class returned them. *)
Theorem plot_ppi_map_masks_outside (field : string) (o : PpiMapArgs) (w w' : World) :
  plot_ppi_map field o w = (Ok tt, w') ->
  exists (bm : Basemap) (pm : Mesh) (xd yd : ndarray) (raw d : marray) (lo hi : R),
    get_data (radar (base (self w))) field (sweep o) (mask_tuple o) = Ok raw /\
    parse_vmin_vmax (radar (base (self w))) field (vmin o) (vmax o) = Ok (lo, hi) /\
    In (Pcolormesh bm pm xd yd d lo hi (cmap o)) (drawn w') /\
    List.length d = List.length raw /\
    if mask_outside o
    then forall v : R,
           In (Some v) d <-> In (Some v) raw /\ Rmin lo hi <= v <= Rmax lo hi
    else d = raw.
Proof.
  intros H. apply plot_ppi_map_ok in H.
  destruct H as (lo & hi & data & x & y & lon & lat & a & b & c & e & xd & yd & H).
  cbv zeta in H. destruct H as (Hv & Hd & _ & _ & _ & _ & _ & Hdrawn & _).
  do 4 eexists. exists data. eexists. exists lo, hi.
  split; [exact Hd |]. split; [exact Hv |].
  split; [rewrite Hdrawn; apply in_or_app; right; cbn [app In];
          do 4 right; left; reflexivity |].
  destruct (mask_outside o).
  - split; [| intros v; apply masked_outside_In].
    unfold Np.masked_outside.
    destruct (Np.Rltb hi lo); apply length_map.
  - split; reflexivity.
Qed.

End More.

(** ** Overlays without a map *)

Section NoMap.

Context {B : Backend}.

Lemma overlay_without_basemap (c : Call) (w : World) :
  basemap (self w) = None ->
  (forall field o, c <> PlotPpiMap field o) ->
  snd (call c w) = w.
Proof.
  intros Hbm Hc.
  assert (Hgeo : forall lons lats style, snd (plot_line_geo lons lats style w) = w).
  { intros. unfold plot_line_geo, bind, getattr, call_basemap, raise.
    now rewrite Hbm. }
  assert (Hxy : forall xs ys style, snd (plot_line_xy xs ys style w) = w).
  { intros. unfold plot_line_xy, call_proj.
    unfold bind at 1 2. unfold getattr at 1. unfold lift.
    destruct (on_arrays (pyproj_transform (proj (self w)) true) xs ys)
      as [[lons lats] | e]; [apply Hgeo | reflexivity]. }
  destruct c as [field o | lon lat symbol label off | | |]; cbn [call].
  - now elim (Hc field o).
  - unfold plot_point, bind, getattr, call_basemap_point, raise. now rewrite Hbm.
  - apply Hgeo.
  - apply Hxy.
  - apply Hxy.
Qed.

(** X13. As long as the display has no basemap, the overlay methods do
    nothing but raise: after any number of calls of [plot_point],
    [plot_line_geo], [plot_line_xy] and [plot_range_ring], with any
    arguments, the display is as it was and nothing has been drawn. *)
Theorem overlays_without_basemap_do_nothing (cs : list Call) (w : World) :
  basemap (self w) = None ->
  (forall c field o, In c cs -> c <> PlotPpiMap field o) ->
  run_calls cs w = w.
Proof.
  intros Hbm. induction cs as [| c cs IH]; intros Hcs; cbn [run_calls].
  - reflexivity.
  - rewrite overlay_without_basemap.
    + apply IH. intros c' field o Hin. apply Hcs. now right.
    + exact Hbm.
    + intros field o. apply Hcs. now left.
Qed.

End NoMap.

(** ** These theorems at work *)


Lemma plot_ppi_map_empty_sweep_witness :
  @get_x_y Scenario.empty_sweep tt (0, 0) "reflectivity" 0 = Ok ([], []) /\
  plot_ppi_map "reflectivity" ppi_map_defaults Scenario.w0_empty =
  (Raise ValueError, Scenario.w0_empty).
Proof.
  split; [reflexivity |].
  apply (@plot_ppi_map_empty_sweep Scenario.empty_sweep "reflectivity"
           ppi_map_defaults Scenario.w0_empty (-8) 64 []); reflexivity.
Defined.

Lemma plot_point_offset_only_with_label_witness :
  basemap (self Demo.w_map) = Some Demo.bm /\
  (List.length (@nil R) < 2)%nat /\
  fst (plot_point (-88) 41 "ro" (Some "KLOT"%string) [] Demo.w_map)
    = Raise IndexError.
Proof.
  split; [reflexivity |]. split; [cbn; lia |].
  destruct (@plot_point_offset_only_with_label Demo.backend (-88) 41 "ro"%string
              "KLOT"%string [] Demo.w_map Demo.bm eq_refl) as [_ H].
  rewrite H by (cbn; lia). reflexivity.
Defined.

Lemma plot_range_ring_on_map_witness :
  exists w' : World,
    plot_range_ring 50000 "r-" Demo.w_map = (Ok tt, w') /\
    exists xp yp : ndarray,
      w' = snd (draw (Line (cur_ax Demo.w_map) xp yp "r-") Demo.w_map) /\
      List.length xp = 360%nat.
Proof.
  assert (Hrun : exists w' : World,
            plot_range_ring 50000 "r-" Demo.w_map = (Ok tt, w')).
  { unfold plot_range_ring. cbv zeta.
    rewrite plot_line_xy_run
      by (unfold Np.scaled_sin, Np.scaled_cos; now rewrite !length_map).
    rewrite (@plot_line_geo_run Demo.backend _ _ _ Demo.w_map Demo.bm eq_refl)
      by apply pointwise_lengths.
    unfold draw. eexists. reflexivity. }
  destruct Hrun as [w' H]. exists w'. split; [exact H |].
  destruct (@plot_range_ring_on_map Demo.backend 50000 "r-"%string Demo.w_map
              w' H) as (bm & xp & yp & _ & Hw & Hlen & _).
  exists xp, yp. split; [exact Hw | exact Hlen].
Defined.

Lemma display_ok_run_calls_witness :
  display_ok (self Demo.w0) /\
  display_ok (self (run_calls Scenario.script Demo.w0)).
Proof.
  assert (H : display_ok (self Demo.w0)).
  { split; [reflexivity |]. split; [reflexivity |]. intros bm Hbm. discriminate Hbm. }
  split; [exact H |].
  apply (@display_ok_run_calls Demo.backend Scenario.script Demo.w0 H).
Defined.

Lemma plot_ppi_map_masks_outside_witness :
  plot_ppi_map "reflectivity" ppi_map_defaults Demo.w0 = (Ok tt, Demo.w1) /\
  exists (bm : Basemap) (pm : Mesh) (xd yd : ndarray) (d : marray) (lo hi : R),
    In (Pcolormesh bm pm xd yd d lo hi "jet") (drawn Demo.w1) /\
    forall v : R, In (Some v) d -> Rmin lo hi <= v <= Rmax lo hi.
Proof.
  split; [exact demo_first_plot |].
  destruct (@plot_ppi_map_masks_outside Demo.backend "reflectivity" ppi_map_defaults
              Demo.w0 Demo.w1 demo_first_plot)
    as (bm & pm & xd & yd & raw & d & lo & hi & _ & _ & Hin & _ & Hmask).
  exists bm, pm, xd, yd, d, lo, hi. split; [exact Hin |].
  intros v Hv. apply (proj1 (Hmask v)) in Hv. exact (proj2 Hv).
Defined.

Lemma auto_range_ignores_corners_witness :
  auto_range ppi_map_defaults = true /\
  plot_ppi_map "reflectivity" (with_corners ppi_map_defaults 0 1 0 1) Demo.w0 =
  plot_ppi_map "reflectivity" ppi_map_defaults Demo.w0.
Proof.
  split; [reflexivity |].
  apply (@auto_range_ignores_corners Demo.backend "reflectivity" ppi_map_defaults
           0 1 0 1 Demo.w0 eq_refl).
Defined.

Lemma overlays_without_basemap_do_nothing_witness :
  basemap (self Demo.w0) = None /\
  run_calls [PlotRangeRing 50000 "r-"; PlotLineXy [0; 1000] [0] "r-";
             PlotPoint (-88) 41 "ro" None default_label_offset] Demo.w0 = Demo.w0.
Proof.
  split; [reflexivity |].
  apply (@overlays_without_basemap_do_nothing Demo.backend); [reflexivity |].
  intros c field o [<- | [<- | [<- | []]]]; discriminate.
Defined.
